(** * saycbridge z3b: preconditions and rules

    A shallow embedding of [z3b/preconditions.py] and of the [Rule] class of
    [z3b/rules.py], with the properties of the rule engine proved about it.

    Python objects are embedded as follows.
    - A method that may raise returns a [result]; the exception is kept.
    - Values whose dynamic type the code inspects ([not x], [isinstance],
      [list(x)], iteration) are values of [pyval].
    - The solver is an oracle; computations that consult it record their
      queries, in order, in the [Oracle] monad.
    - Collaborators that live outside the two files (calls, suits, history,
      expressions, the [memoized] decorator) are modelled at their interface;
      each such definition says so. *)

From Stdlib Require Import ZArith Lia Ascii String.
From stdpp Require Import base option list strings gmap fin_maps.

Set Warnings "-register-all".
Local Open Scope string_scope.
Local Open Scope Z_scope.
Local Open Scope list_scope.

(** ** Exceptions and results *)

Inductive exn : Type :=
| AttributeError
| TypeError
| ValueError
| AssertionError (msg : option string).

Inductive result (A : Type) : Type :=
| Ok (a : A)
| Raise (e : exn).
Arguments Ok {A} a.
Arguments Raise {A} e.

#[global] Instance result_ret : MRet result := fun A a => Ok a.
#[global] Instance result_bind : MBind result :=
  fun A B f m => match m with Ok a => f a | Raise e => Raise e end.

(** ** Suits and calls *)

Module suit.

(** Modelled from the spec: [core.suit].  The five strains in suit-rank
    order, notrump highest; [SUITS] is the four suits. *)
Inductive t : Type := CLUBS | DIAMONDS | HEARTS | SPADES | NOTRUMP.

(** The integer a strain is in the source. *)
Definition index (s : t) : Z :=
  match s with
  | CLUBS => 0 | DIAMONDS => 1 | HEARTS => 2 | SPADES => 3 | NOTRUMP => 4
  end.

Definition SUITS : list t := [CLUBS; DIAMONDS; HEARTS; SPADES].

#[global] Instance eq_dec : EqDecision t.
Proof. solve_decision. Defined.

End suit.

Inductive Level : Type := L1 | L2 | L3 | L4 | L5 | L6 | L7.

Definition level_number (l : Level) : Z :=
  match l with
  | L1 => 1 | L2 => 2 | L3 => 3 | L4 => 4 | L5 => 5 | L6 => 6 | L7 => 7
  end.

#[global] Instance Level_eq_dec : EqDecision Level.
Proof. solve_decision. Defined.

(** Modelled from the spec: [core.call.Call].  A call is Pass, Double,
    Redouble or a contract bid of a level (1-7) and a strain; it exposes
    [name], [strain], [level()] and the four [is_*] predicates, and is parsed
    from its canonical short name. *)
Inductive Call : Type :=
| Pass
| Double
| Redouble
| Bid (l : Level) (s : suit.t).

#[global] Instance Call_eq_dec : EqDecision Call.
Proof. solve_decision. Defined.

Module call.

Definition is_pass (c : Call) : bool :=
  match c with Pass => true | _ => false end.
Definition is_double (c : Call) : bool :=
  match c with Double => true | _ => false end.
Definition is_redouble (c : Call) : bool :=
  match c with Redouble => true | _ => false end.
Definition is_contract (c : Call) : bool :=
  match c with Bid _ _ => true | _ => false end.

(** [call.strain]: [None] for Pass, Double and Redouble. *)
Definition strain (c : Call) : option suit.t :=
  match c with Bid _ s => Some s | _ => None end.

(** [call.level()]: [None] for Pass, Double and Redouble. *)
Definition level (c : Call) : option Z :=
  match c with Bid l _ => Some (level_number l) | _ => None end.

Definition level_char (l : Level) : ascii :=
  match l with
  | L1 => "1" | L2 => "2" | L3 => "3" | L4 => "4"
  | L5 => "5" | L6 => "6" | L7 => "7"
  end%char.

Definition strain_char (s : suit.t) : ascii :=
  match s with
  | suit.CLUBS => "C" | suit.DIAMONDS => "D" | suit.HEARTS => "H"
  | suit.SPADES => "S" | suit.NOTRUMP => "N"
  end%char.

Definition name (c : Call) : string :=
  match c with
  | Pass => "P"
  | Double => "X"
  | Redouble => "XX"
  | Bid l s => String (level_char l) (String (strain_char s) EmptyString)
  end.

Definition level_of_char (a : ascii) : option Level :=
  (if Ascii.eqb a "1" then Some L1 else
   if Ascii.eqb a "2" then Some L2 else
   if Ascii.eqb a "3" then Some L3 else
   if Ascii.eqb a "4" then Some L4 else
   if Ascii.eqb a "5" then Some L5 else
   if Ascii.eqb a "6" then Some L6 else
   if Ascii.eqb a "7" then Some L7 else None)%char.

Definition strain_of_char (a : ascii) : option suit.t :=
  (if Ascii.eqb a "C" then Some suit.CLUBS else
   if Ascii.eqb a "D" then Some suit.DIAMONDS else
   if Ascii.eqb a "H" then Some suit.HEARTS else
   if Ascii.eqb a "S" then Some suit.SPADES else
   if Ascii.eqb a "N" then Some suit.NOTRUMP else None)%char.

(** [Call.from_string]; a string that is no call name raises. *)
Definition from_string (s : string) : result Call :=
  if String.eqb s "P" then Ok Pass else
  if String.eqb s "X" then Ok Double else
  if String.eqb s "XX" then Ok Redouble else
  match s with
  | String a (String b EmptyString) =>
      match level_of_char a, strain_of_char b with
      | Some l, Some st => Ok (Bid l st)
      | _, _ => Raise ValueError
      end
  | _ => Raise ValueError
  end.

End call.

(** [x in suit.SUITS] for a strain attribute that may be [None]. *)
Definition in_SUITS (s : option suit.t) : bool :=
  match s with
  | Some s => bool_decide (s ∈ suit.SUITS)
  | None => false
  end.

(** Python 2 ordering of strain attributes: [None] sorts below every
    integer. *)
Definition strain_le (a b : option suit.t) : bool :=
  match a, b with
  | None, _ => true
  | Some _, None => false
  | Some x, Some y => suit.index x <=? suit.index y
  end.

Definition strain_lt (a b : option suit.t) : bool :=
  match a, b with
  | _, None => false
  | None, Some _ => true
  | Some x, Some y => suit.index x <? suit.index y
  end.

(** Python 2 ordering of a level against an integer. *)
Definition level_le (l : option Z) (n : Z) : bool :=
  match l with
  | None => true
  | Some k => k <=? n
  end.

(** Integer subtraction of two levels; [None] is no operand of [-]. *)
Definition level_sub (a b : option Z) : result Z :=
  match a, b with
  | Some x, Some y => Ok (x - y)
  | _, _ => Raise TypeError
  end.

Lemma from_string_name (c : Call) : call.from_string (call.name c) = Ok c.
Proof. destruct c as [| | |l s]; try reflexivity. destruct l, s; reflexivity. Qed.

(** ** Annotations, positions and the history *)

Module annotations.

(** The [annotations] enumeration of [preconditions.py]. *)
Inductive t : Type :=
| Opening
| NoTrumpSystemsOn
| Artificial
| Stayman
| Gerber
| Transfer
| Jacoby2NT
| NegativeDouble.

#[global] Instance eq_dec : EqDecision t.
Proof. solve_decision. Defined.

End annotations.

Module positions.

(** Modelled from the spec: the [positions] enumeration of [model.py], the
    four seats relative to the bidder on turn. *)
Inductive t : Type := Me | Partner | LHO | RHO.

#[global] Instance eq_dec : EqDecision t.
Proof. solve_decision. Defined.

End positions.

(** Modelled from the spec: the read-only projection of the auction for one
    position (the object behind [history.me], [history.partner],
    [history.rho] and [history.view_for(position)]). *)
Record PositionView : Type := {
  last_call : option Call;
  annotations_for_last_call : list annotations.t;
  min_points : Z;
  min_length : suit.t -> Z;
  could_have_more_points_than : Z -> bool;
}.

(** Modelled from the spec: the history object, consumed and never built by
    the code under study.  [call_history] is the sequence of calls made so
    far, oldest first. *)
Record History : Type := {
  call_history : list Call;
  annotations : list annotations.t;
  annotations_for_position : positions.t -> list annotations.t;
  view_for : positions.t -> PositionView;
  is_unbid_suit : suit.t -> bool;
}.

Definition me (h : History) : PositionView := view_for h positions.Me.
Definition partner (h : History) : PositionView := view_for h positions.Partner.
Definition rho (h : History) : PositionView := view_for h positions.RHO.

(** Modelled from the spec: [call_history.last_contract()], the last
    established contract: the most recent call that is a contract, [None]
    when there is none.  [history.last_contract] reads the same value. *)
Definition last_contract (calls : list Call) : option Call :=
  List.find call.is_contract (rev calls).

(** ** Symbolic expressions and the solver oracle *)

Module z3.

(** Modelled from the spec: the integer attributes of a hand (point count,
    suit lengths, high-card holdings) that expressions compare. *)
Inductive ArithRef : Type :=
| IntVal (n : Z)
| Int (x : string).

(** Modelled from the spec: the symbolic boolean expressions over hand
    attributes that are handed to the solver ([z3.ExprRef]). *)
Inductive ExprRef : Type :=
| BoolVal (b : bool)
| Bool (x : string)
| Ge (a b : ArithRef)
| Gt (a b : ArithRef)
| Le (a b : ArithRef)
| Eq (a b : ArithRef)
| And (args : list ExprRef)
| Or (args : list ExprRef)
| Not (e : ExprRef).

(** A hand, as far as expressions can tell. *)
Record Model : Type := { ints : string -> Z; bools : string -> bool }.

Definition value (m : Model) (a : ArithRef) : Z :=
  match a with
  | IntVal n => n
  | Int x => ints m x
  end.

Fixpoint holds (m : Model) (e : ExprRef) : bool :=
  match e with
  | BoolVal b => b
  | Bool x => bools m x
  | Ge a b => value m b <=? value m a
  | Gt a b => value m b <? value m a
  | Le a b => value m a <=? value m b
  | Eq a b => value m a =? value m b
  | And args => forallb (holds m) args
  | Or args => existsb (holds m) args
  | Not e => negb (holds m e)
  end.

End z3.

(** Modelled from the spec: [NO_CONSTRAINTS], the trivially true
    expression. *)
Definition NO_CONSTRAINTS : z3.ExprRef := z3.BoolVal true.

(** Modelled from the spec: the solver, an oracle on expressions; [is_sat]
    is its verdict for the hand it was loaded with. *)
Record Solver : Type := { is_sat : z3.ExprRef -> bool }.

(** Modelled from the spec: a [Constraint] object of [constraints.py],
    which yields its expression for a history and a call. *)
Record Constraint : Type := { expr : History -> Call -> z3.ExprRef }.

(** Modelled from the spec: a value of a priority enumeration
    ([enum.EnumValue] of [third_party/enum.py]): its family, its ordinal and
    its name. *)
Record EnumValue : Type := { enumtype : string; index : nat; key : string }.

(** ** Python values *)

(** The values whose dynamic type the rule code inspects. [PSeq] is a list
    or a tuple. *)
Inductive pyval : Type :=
| PNone
| PBool (b : bool)
| PEnum (v : EnumValue)
| PConstraint (c : Constraint)
| PExpr (e : z3.ExprRef)
| PSeq (items : list pyval).

(** Truth value testing: [None], [False] and empty sequences are false,
    every other object here is true (enumeration values, constraints and
    expressions define no truth value of their own). *)
Definition truthy (v : pyval) : bool :=
  match v with
  | PNone => false
  | PBool b => b
  | PSeq [] => false
  | _ => true
  end.

(** [x and y], where [x] is a call or [None]: a call is a true object. *)
Definition and_then (x : option Call) (y : Call -> pyval) : pyval :=
  match x with
  | None => PNone
  | Some c => y c
  end.

(** ** Preconditions ([preconditions.py]) *)

(** The [strain] argument of [LastBidHasStrain]: one strain or a list. *)
Inductive strain_arg : Type :=
| OneStrain (s : suit.t)
| StrainList (l : list suit.t).

(** The three [_last_call] overrides of the [Jump] subclasses. *)
Inductive jump_reference : Type :=
| FromLastContract
| FromMyLastBid
| FromPartnerLastBid.

(** The concrete precondition classes, with their constructor arguments.
    [Jump r e] is the subclass of [Jump] whose [_last_call] is [r],
    constructed with [exact_size=e]. *)
Inductive Precondition : Type :=
| InvertedPrecondition (precondition : Precondition)
| NoOpening
| Opened (position : positions.t)
| ForcedToBid
| NoCompetition
| LastBidHasAnnotation (position : positions.t) (annotation : annotations.t)
| LastBidHasStrain (position : positions.t) (strain : strain_arg)
| LastBidWasSuit (position : positions.t)
| LastBidHasLevel (position : positions.t) (level : Z)
| LastBidWas (position : positions.t) (call_name : string)
| RaiseOfPartnersLastSuit
| SuitLowerThanMyLastSuit
| RebidSameSuit
| PartnerHasAtLeastLengthInSuit (length : Z)
| UnbidSuit
| Strain (strain : suit.t)
| MaxLevel (max_level : Z)
| MinimumCombinedPointsPrecondition (min_points : Z)
| Jump (reference : jump_reference) (exact_size : option Z).

Definition JumpFromLastContract (exact_size : option Z) : Precondition :=
  Jump FromLastContract exact_size.
Definition JumpFromMyLastBid (exact_size : option Z) : Precondition :=
  Jump FromMyLastBid exact_size.
Definition JumpFromPartnerLastBid (exact_size : option Z) : Precondition :=
  Jump FromPartnerLastBid exact_size.
Definition NotJumpFromLastContract : Precondition :=
  JumpFromLastContract (Some 0).
Definition NotJumpFromMyLastBid : Precondition :=
  JumpFromMyLastBid (Some 0).
Definition NotJumpFromPartnerLastBid : Precondition :=
  JumpFromPartnerLastBid (Some 0).

Module forced_to_bid.

Definition _rho_bid (history : History) : pyval :=
  and_then (last_call (rho history))
           (fun c => PBool (negb (call.is_pass c))).

Definition _partner_last_bid_was_pass (history : History) : pyval :=
  and_then (last_call (partner history))
           (fun c => PBool (call.is_pass c)).

Definition _partner_last_call_was_artificial (history : History) : bool :=
  bool_decide
    (annotations.Artificial ∈ annotations_for_last_call (partner history)).

Definition _is_forced_to_bid (history : History) : bool :=
  if truthy (_partner_last_bid_was_pass history) then false
  else if truthy (_rho_bid history) then false
  else if _partner_last_call_was_artificial history then true
  else could_have_more_points_than (partner history) 25.

End forced_to_bid.

Module jump.

Definition _jump_size (last_call call : Call) : result Z :=
  if strain_le (call.strain call) (call.strain last_call) then
    d ← level_sub (call.level call) (call.level last_call);
    Ok (d - 1)
  else
    level_sub (call.level call) (call.level last_call).

Definition _last_call (reference : jump_reference) (history : History)
  : option Call :=
  match reference with
  | FromLastContract => last_contract (call_history history)
  | FromMyLastBid => last_call (me history)
  | FromPartnerLastBid => last_call (partner history)
  end.

(** The candidate after the rewrite of a double or redouble; [None] is
    what [last_contract()] gives when no contract was bid. *)
Definition rewritten (history : History) (call : Call) : option Call :=
  if call.is_double call || call.is_redouble call
  then last_contract (call_history history)
  else Some call.

Definition fits (reference : jump_reference) (exact_size : option Z)
           (history : History) (call : Call) : result pyval :=
  if call.is_pass call then Ok (PBool false) else
  let call := rewritten history call in
  match _last_call reference history with
  | None => Ok (PBool false)
  | Some last_call =>
      if negb (call.is_contract last_call) then Ok (PBool false) else
      match call with
      | None => Raise AttributeError
      | Some call =>
          jump_size ← _jump_size last_call call;
          match exact_size with
          | None => Ok (PBool (negb (jump_size =? 0)))
          | Some size => Ok (PBool (size =? jump_size))
          end
      end
  end.

End jump.

(** [precondition.fits(history, call)]. *)
Fixpoint fits (p : Precondition) (history : History) (call : Call)
  : result pyval :=
  match p with
  | InvertedPrecondition precondition =>
      v ← fits precondition history call;
      Ok (PBool (negb (truthy v)))
  | NoOpening =>
      Ok (PBool (negb (bool_decide
                         (annotations.Opening ∈ annotations history))))
  | Opened position =>
      Ok (PBool (bool_decide
                   (annotations.Opening
                      ∈ annotations_for_position history position)))
  | ForcedToBid =>
      Ok (PBool (forced_to_bid._is_forced_to_bid history))
  | NoCompetition =>
      Ok (and_then (last_call (rho history))
                   (fun c => PBool (negb (call.is_pass c))))
  | LastBidHasAnnotation position annotation =>
      Ok (PBool (bool_decide
                   (annotation
                      ∈ annotations_for_last_call (view_for history position))))
  | LastBidHasStrain position strain =>
      let last_call := last_call (view_for history position) in
      match strain with
      | StrainList l =>
          Ok (and_then last_call
                (fun c => PBool (match call.strain c with
                                 | Some s => bool_decide (s ∈ l)
                                 | None => false
                                 end)))
      | OneStrain s =>
          Ok (and_then last_call
                (fun c => PBool (bool_decide (call.strain c = Some s))))
      end
  | LastBidWasSuit position =>
      Ok (and_then (last_call (view_for history position))
            (fun c => PBool (in_SUITS (call.strain c))))
  | LastBidHasLevel position level =>
      Ok (and_then (last_call (view_for history position))
            (fun c => PBool (bool_decide (call.level c = Some level))))
  | LastBidWas position call_name =>
      Ok (and_then (last_call (view_for history position))
            (fun c => PBool (String.eqb (call.name c) call_name)))
  | RaiseOfPartnersLastSuit =>
      match last_call (partner history) with
      | None => Ok (PBool false)
      | Some partner_last_call =>
          match call.strain partner_last_call with
          | None => Ok (PBool false)
          | Some s =>
              if negb (bool_decide (s ∈ suit.SUITS)) then Ok (PBool false)
              else Ok (PBool (bool_decide (call.strain call = Some s)
                              && (3 <=? min_length (partner history) s)))
          end
      end
  | SuitLowerThanMyLastSuit =>
      if negb (in_SUITS (call.strain call)) then Ok (PBool false) else
      match last_call (me history) with
      | None => Raise AttributeError
      | Some last_call =>
          if negb (in_SUITS (call.strain last_call)) then Ok (PBool false)
          else Ok (PBool (strain_lt (call.strain call)
                                    (call.strain last_call)))
      end
  | RebidSameSuit =>
      if negb (in_SUITS (call.strain call)) then Ok (PBool false) else
      Ok (and_then (last_call (me history))
            (fun c => PBool (bool_decide (call.strain call = call.strain c))))
  | PartnerHasAtLeastLengthInSuit length =>
      match call.strain call with
      | None => Ok (PBool false)
      | Some s =>
          if negb (bool_decide (s ∈ suit.SUITS)) then Ok (PBool false)
          else Ok (PBool (length <=? min_length (partner history) s))
      end
  | UnbidSuit =>
      match call.strain call with
      | None => Ok (PBool false)
      | Some s =>
          if negb (bool_decide (s ∈ suit.SUITS)) then Ok (PBool false)
          else Ok (PBool (is_unbid_suit history s))
      end
  | Strain strain =>
      Ok (PBool (bool_decide (call.strain call = Some strain)))
  | MaxLevel max_level =>
      if call.is_double call then
        match last_contract (call_history history) with
        | None => Raise AttributeError
        | Some c => Ok (PBool (level_le (call.level c) max_level))
        end
      else
        Ok (PBool (call.is_contract call
                   && level_le (call.level call) max_level))
  | MinimumCombinedPointsPrecondition points =>
      Ok (PBool (points
                 <=? min_points (partner history) + min_points (me history)))
  | Jump reference exact_size =>
      jump.fits reference exact_size history call
  end.

(** ** The solver oracle *)

(** A computation that may consult the solver: its result and the queries it
    made, oldest first. *)
Definition Oracle (A : Type) : Type := (result A * list z3.ExprRef)%type.

#[global] Instance Oracle_ret : MRet Oracle := fun A a => (Ok a, []).
#[global] Instance Oracle_bind : MBind Oracle :=
  fun A B f m =>
    match m with
    | (Ok a, q) => let '(r, q') := f a in (r, q ++ q')
    | (Raise e, q) => (Raise e, q)
    end.

(** A step that does not consult the solver. *)
Definition pure {A} (m : result A) : Oracle A := (m, []).

(** Modelled from the spec: [is_possible(solver, expr)], one query to the
    oracle. *)
Definition is_possible (solver : Solver) (e : z3.ExprRef) : Oracle bool :=
  (Ok (is_sat solver e), [e]).

(** Modelled from the spec: the hand; the rule code passes it along and
    never looks inside. *)
Record Hand : Type := { cards : string }.

(** Modelled from the spec: the interface of the external legal-call
    enumerator, [CallExplorer]. *)
Record CallExplorer : Type := {
  possible_calls_over : list Call -> list Call;
}.

(** ** Rules ([rules.py]) *)

(** The class attributes of a [Rule] subclass that the methods read. *)
Record Rule : Type := {
  name : string;
  preconditions : list Precondition;
  call_name : option string;
  call_names : option (list string);
  constraints : gmap string pyval;
  shared_constraints : pyval;
  conditional_priorities : list (z3.ExprRef * EnumValue);
  priority : option EnumValue;
}.

(** [a, b = v] *)
Definition unpack2 (v : pyval) : result (pyval * pyval) :=
  match v with
  | PSeq [a; b] => Ok (a, b)
  | PSeq _ => Raise ValueError
  | _ => Raise TypeError
  end.

Module rule.

(** [self.priority] as a value. *)
Definition priority_value (self : Rule) : pyval :=
  match priority self with
  | Some p => PEnum p
  | None => PNone
  end.

(** Truth values of the attributes. *)
Definition has_call_name (self : Rule) : bool :=
  match call_name self with
  | Some s => negb (String.eqb s "")
  | None => false
  end.

Definition has_call_names (self : Rule) : bool :=
  match call_names self with
  | Some (_ :: _) => true
  | _ => false
  end.

Definition has_constraints (self : Rule) : bool :=
  negb (bool_decide (constraints self = ∅)).

Definition has_conditional_priorities (self : Rule) : bool :=
  match conditional_priorities self with
  | [] => false
  | _ :: _ => true
  end.

(** [Rule.__init__]: the three assertions, in order. *)
Definition __init__ (self : Rule) : result unit :=
  if negb (truthy (priority_value self) || has_constraints self)
  then Raise (AssertionError (Some ("" +:+ name self +:+ " is missing priority")))
  else if negb (negb (has_conditional_priorities self)
                || negb (has_constraints self))
  then Raise (AssertionError None)
  else if negb (negb (has_conditional_priorities self)
                || has_call_name self)
  then Raise (AssertionError None)
  else Ok tt.

Fixpoint fits_all (ps : list Precondition) (history : History)
         (call : Call) : result bool :=
  match ps with
  | [] => Ok true
  | precondition :: rest =>
      v ← fits precondition history call;
      if negb (truthy v) then Ok false else fits_all rest history call
  end.

Definition _fits_preconditions (self : Rule) (history : History)
           (call : Call) : result bool :=
  fits_all (preconditions self) history call.

(** [map(Call.from_string, names)] *)
Fixpoint from_strings (names : list string) : result (list Call) :=
  match names with
  | [] => Ok []
  | n :: rest =>
      c ← call.from_string n;
      cs ← from_strings rest;
      Ok (c :: cs)
  end.

Definition _possible_calls_over (explorer : CallExplorer) (self : Rule)
           (history : History) : result (list Call) :=
  if has_call_name self then
    c ← call.from_string (default "" (call_name self));
    Ok [c]
  else if has_call_names self then
    from_strings (default [] (call_names self))
  else if has_constraints self then
    from_strings (map_to_list (constraints self)).*1
  else
    Ok (possible_calls_over explorer (call_history history)).

(** The calls a loop over the generator receives. *)
Fixpoint yield_fitting (self : Rule) (history : History)
         (calls : list Call) : result (list Call) :=
  match calls with
  | [] => Ok []
  | call :: rest =>
      b ← _fits_preconditions self history call;
      cs ← yield_fitting self history rest;
      Ok (if b : bool then call :: cs else cs)
  end.

Definition calls_over (explorer : CallExplorer) (self : Rule)
           (history : History) : result (list Call) :=
  calls ← _possible_calls_over explorer self history;
  yield_fitting self history calls.

Fixpoint _exprs_from_constraints (constraints : pyval) (history : History)
         (call : Call) {struct constraints} : result (list z3.ExprRef) :=
  if negb (truthy constraints) then Ok [NO_CONSTRAINTS] else
  match constraints with
  | PConstraint c => Ok [expr c history call]
  | PExpr e => Ok [e]
  | PSeq items =>
      (fix chain (items : list pyval) : result (list z3.ExprRef) :=
         match items with
         | [] => Ok []
         | constraint :: rest =>
             es ← _exprs_from_constraints constraint history call;
             es' ← chain rest;
             Ok (es ++ es')
         end) items
  | _ => Raise TypeError
  end.

Definition _per_call_constraints_and_priority (self : Rule) (call : Call)
  : result pyval :=
  let constraints_tuple :=
    default PNone (constraints self !! call.name call) in
  if negb (truthy constraints_tuple) then
    Ok (PSeq [PNone; priority_value self])
  else
    match constraints_tuple with
    | PSeq items =>
        match last items with
        | Some (PEnum _) =>
            if bool_decide (length items = 2%nat) then Ok constraints_tuple
            else Raise (AssertionError None)
        | _ => Ok PNone
        end
    | _ => Ok (PSeq [constraints_tuple; priority_value self])
    end.

Definition constraints_expr_for_call (self : Rule) (history : History)
           (call : Call) : result z3.ExprRef :=
  t ← _per_call_constraints_and_priority self call;
  '(per_call_constraints, _) ← unpack2 t;
  exprs ← (if truthy per_call_constraints
           then _exprs_from_constraints per_call_constraints history call
           else Ok []);
  shared ← _exprs_from_constraints (shared_constraints self) history call;
  Ok (z3.And (exprs ++ shared)).

(** [possible_priorities_and_conditions_for_call], run to its end: the
    pairs it yields, or the failure of [assert priority]. *)
Definition possible_priorities_and_conditions_for_call (self : Rule)
           (call : Call) : result (list (pyval * z3.ExprRef)) :=
  t ← _per_call_constraints_and_priority self call;
  '(_, priority) ← unpack2 t;
  if negb (truthy priority) then Raise (AssertionError None)
  else Ok (((fun cp : z3.ExprRef * EnumValue => (PEnum cp.2, cp.1))
              <$> conditional_priorities self)
           ++ [(priority, NO_CONSTRAINTS)]).

(** The loop over [conditional_priorities]: the priority it returns, or
    [None] when it runs to the end. *)
Fixpoint first_possible (solver : Solver)
         (conditional : list (z3.ExprRef * EnumValue))
  : Oracle (option EnumValue) :=
  match conditional with
  | [] => mret None
  | (condition, priority) :: rest =>
      possible ← is_possible solver condition;
      if possible : bool then mret (Some priority)
      else first_possible solver rest
  end.

(** The body of [priority_for_call_and_hand], without the decorator. *)
Definition priority_for_call_and_hand (self : Rule) (solver : Solver)
           (history : History) (call : Call) (hand : Hand) : Oracle pyval :=
  e ← pure (constraints_expr_for_call self history call);
  possible ← is_possible solver e;
  if negb possible then mret PNone else
  found ← first_possible solver (conditional_priorities self);
  match found with
  | Some priority => mret (PEnum priority)
  | None =>
      t ← pure (_per_call_constraints_and_priority self call);
      '(_, priority) ← pure (unpack2 t);
      if truthy priority then mret priority
      else mret (priority_value self)
  end.

End rule.

(** ** The [memoized] decorator *)

Section memoized.

Context {K V : Type} `{Countable K}.
Variable func : K -> Oracle V.

(** The cache, and every query the oracle has received so far.  [K] is the
    argument tuple as the cache compares it. *)
Record memo_state : Type := {
  cache : gmap K V;
  queries : list z3.ExprRef;
}.

Definition memo_empty : memo_state := {| cache := ∅; queries := [] |}.

(** Modelled from the spec: the [memoized] decorator of
    [third_party/memoized.py], a cache keyed by the full argument tuple.  A
    hit returns the stored result and does not run the function; a miss runs
    it and stores what it returns; a call that raises stores nothing. *)
Definition memoized (args : K) (st : memo_state)
  : result V * memo_state :=
  match cache st !! args with
  | Some value => (Ok value, st)
  | None =>
      let '(r, q) := func args in
      match r with
      | Ok value =>
          (Ok value,
           {| cache := <[args := value]> (cache st);
              queries := queries st ++ q |})
      | Raise e =>
          (Raise e, {| cache := cache st; queries := queries st ++ q |})
      end
  end.

(** Every stored result is what the function returns. *)
Definition coherent (st : memo_state) : Prop :=
  forall k v, cache st !! k = Some v -> (func k).1 = Ok v.

(** The state after a sequence of memoized calls. *)
Definition memo_run (argss : list K) (st : memo_state) : memo_state :=
  foldl (fun st args => (memoized args st).2) st argss.

End memoized.

Arguments memo_state K V {_ _}.
Arguments memo_empty {K V _ _}.

(** The arguments of [priority_for_call_and_hand], [self] included. *)
Definition Args : Type := (Rule * Solver * History * Call * Hand)%type.

Definition priority_for_call_and_hand_body (a : Args) : Oracle pyval :=
  let '(self, solver, history, call, hand) := a in
  rule.priority_for_call_and_hand self solver history call hand.

(** [priority_for_call_and_hand] as decorated.  The objects are compared by
    the cache as the keys [K]; [objects] gives the objects a key stands
    for. *)
Definition priority_for_call_and_hand_memoized
           {K} `{Countable K} (objects : K -> Args)
  : K -> memo_state K pyval -> result pyval * memo_state K pyval :=
  memoized (fun k => priority_for_call_and_hand_body (objects k)).

(** ** A legal-call enumerator *)

Module call_explorer.

Definition levels : list Level := [L1; L2; L3; L4; L5; L6; L7].
Definition strains : list suit.t :=
  [suit.CLUBS; suit.DIAMONDS; suit.HEARTS; suit.SPADES; suit.NOTRUMP].

Definition bids : list Call :=
  l ← levels; s ← strains; [Bid l s].

Definition above (last : option Call) (c : Call) : bool :=
  match last, c with
  | Some (Bid l0 s0), Bid l s =>
      (level_number l0 <? level_number l)
      || ((level_number l =? level_number l0)
          && (suit.index s0 <? suit.index s))
  | _, _ => true
  end.

(** The last call that is no Pass, with the number of calls made after
    it; [recent] is newest first. *)
Fixpoint last_non_pass (recent : list Call) (after : nat)
  : option (Call * nat) :=
  match recent with
  | [] => None
  | Pass :: rest => last_non_pass rest (S after)
  | c :: _ => Some (c, after)
  end.

Definition is_complete (calls : list Call) : bool :=
  match rev calls with
  | Pass :: Pass :: Pass :: _ :: _ => true
  | _ => false
  end.

Definition doubles (calls : list Call) : list Call :=
  match last_non_pass (rev calls) 0 with
  | Some (c, after) =>
      if Nat.even after then
        if call.is_contract c then [Double]
        else if call.is_double c then [Redouble]
        else []
      else []
  | None => []
  end.

(** Modelled from the spec: the external legal-call enumerator over the
    auction, by the laws of the game.  Nothing is legal once the auction is
    over; otherwise Pass, a Double of the opponents' contract, a Redouble of
    the opponents' Double, and every bid above the last contract. *)
Definition legal_calls (calls : list Call) : list Call :=
  if is_complete calls then []
  else Pass :: doubles calls
            ++ List.filter (above (last_contract calls)) bids.

Definition explorer : CallExplorer :=
  {| possible_calls_over := legal_calls |}.

End call_explorer.

(** ** Entries of the rule catalog *)

Module catalog.

Definition points : z3.ArithRef := z3.Int "points".
Definition clubs : z3.ArithRef := z3.Int "clubs".
Definition diamonds : z3.ArithRef := z3.Int "diamonds".
Definition hearts : z3.ArithRef := z3.Int "hearts".
Definition spades : z3.ArithRef := z3.Int "spades".

Definition response_priorities (i : nat) (k : string) : EnumValue :=
  {| enumtype := "response_priorities"; index := i; key := k |}.

Definition LongestNewMajor := response_priorities 2 "LongestNewMajor".
Definition OneHeartWithFiveResponse :=
  response_priorities 4 "OneHeartWithFiveResponse".
Definition OneDiamondResponse_priority :=
  response_priorities 5 "OneDiamondResponse".
Definition OneHeartWithFourResponse :=
  response_priorities 6 "OneHeartWithFourResponse".
Definition TwoHeartNewSuitResponse :=
  response_priorities 8 "TwoHeartNewSuitResponse".
Definition TwoSpadeNewSuitResponse :=
  response_priorities 9 "TwoSpadeNewSuitResponse".
Definition TwoClubNewSuitResponse :=
  response_priorities 10 "TwoClubNewSuitResponse".
Definition TwoDiamondNewSuitResponse :=
  response_priorities 11 "TwoDiamondNewSuitResponse".

(** [Response.preconditions] *)
Definition Response_preconditions : list Precondition :=
  [LastBidHasAnnotation positions.Partner annotations.Opening].

Definition OneDiamondResponse : Rule :=
  {| name := "OneDiamondResponse";
     preconditions := Response_preconditions;
     call_name := Some "1D";
     call_names := None;
     constraints := ∅;
     shared_constraints :=
       PSeq [PExpr (z3.Ge points (z3.IntVal 6));
             PExpr (z3.Ge diamonds (z3.IntVal 4))];
     conditional_priorities := [];
     priority := Some OneDiamondResponse_priority |}.

Definition OneHeartResponse : Rule :=
  {| name := "OneHeartResponse";
     preconditions := Response_preconditions;
     call_name := Some "1H";
     call_names := None;
     constraints := ∅;
     shared_constraints :=
       PSeq [PExpr (z3.Ge points (z3.IntVal 6));
             PExpr (z3.Ge hearts (z3.IntVal 4))];
     conditional_priorities :=
       [(z3.And [z3.Ge hearts (z3.IntVal 5); z3.Gt hearts spades],
         LongestNewMajor);
        (z3.Ge hearts (z3.IntVal 5), OneHeartWithFiveResponse)];
     priority := Some OneHeartWithFourResponse |}.

Definition NewSuitAtTheTwoLevel : Rule :=
  {| name := "NewSuitAtTheTwoLevel";
     preconditions :=
       Response_preconditions ++ [UnbidSuit; NotJumpFromLastContract];
     call_name := None;
     call_names := None;
     constraints :=
       {[ "2C" := PSeq [PExpr (z3.Ge clubs (z3.IntVal 4));
                        PEnum TwoClubNewSuitResponse];
          "2D" := PSeq [PExpr (z3.Ge diamonds (z3.IntVal 4));
                        PEnum TwoDiamondNewSuitResponse];
          "2H" := PSeq [PExpr (z3.Ge hearts (z3.IntVal 5));
                        PEnum TwoHeartNewSuitResponse];
          "2S" := PSeq [PExpr (z3.Ge spades (z3.IntVal 5));
                        PEnum TwoSpadeNewSuitResponse] ]};
     shared_constraints := PExpr (z3.Ge points (z3.IntVal 10));
     conditional_priorities := [];
     priority := None |}.

End catalog.

(** ** Sample auctions *)

Module examples.

Definition no_calls : PositionView :=
  {| last_call := None;
     annotations_for_last_call := [];
     min_points := 0;
     min_length := fun _ => 0;
     could_have_more_points_than := fun _ => true |}.

Definition made (c : Call) (a : list annotations.t) : PositionView :=
  {| last_call := Some c;
     annotations_for_last_call := a;
     min_points := 0;
     min_length := fun _ => 0;
     could_have_more_points_than := fun _ => true |}.

(** Nobody has called yet. *)
Definition start : History :=
  {| call_history := [];
     annotations := [];
     annotations_for_position := fun _ => [];
     view_for := fun _ => no_calls;
     is_unbid_suit := fun _ => true |}.

(** Partner dealt and opened [1H], RHO passed. *)
Definition partner_opened_1H : History :=
  {| call_history := [Bid L1 suit.HEARTS; Pass];
     annotations := [annotations.Opening];
     annotations_for_position :=
       fun p => match p with
                | positions.Partner => [annotations.Opening]
                | _ => []
                end;
     view_for :=
       fun p => match p with
                | positions.Partner =>
                    made (Bid L1 suit.HEARTS) [annotations.Opening]
                | positions.RHO => made Pass []
                | _ => no_calls
                end;
     is_unbid_suit :=
       fun s => negb (bool_decide (s = suit.HEARTS)) |}.

(** RHO dealt and opened [1H]. *)
Definition rho_opened_1H : History :=
  {| call_history := [Bid L1 suit.HEARTS];
     annotations := [annotations.Opening];
     annotations_for_position :=
       fun p => match p with
                | positions.RHO => [annotations.Opening]
                | _ => []
                end;
     view_for :=
       fun p => match p with
                | positions.RHO =>
                    made (Bid L1 suit.HEARTS) [annotations.Opening]
                | _ => no_calls
                end;
     is_unbid_suit :=
       fun s => negb (bool_decide (s = suit.HEARTS)) |}.

(** A solver loaded with a fully known hand: an expression is possible
    when the hand satisfies it. *)
Definition solver_for (m : z3.Model) : Solver :=
  {| is_sat := z3.holds m |}.

(** 10 points, five hearts, three spades, three diamonds, two clubs. *)
Definition five_hearts : z3.Model :=
  {| z3.ints := fun x =>
       if String.eqb x "points" then 10
       else if String.eqb x "hearts" then 5
       else if String.eqb x "spades" then 3
       else if String.eqb x "diamonds" then 3
       else if String.eqb x "clubs" then 2
       else 0;
     z3.bools := fun _ => false |}.

Definition a_hand : Hand := {| cards := "Q32.AK654.J32.32" |}.

End examples.

(** ** Vocabulary of the properties *)

(** A precondition built without [SuitLowerThanMyLastSuit], [MaxLevel] and
    the jumps from a position's last bid. *)
Fixpoint guards_every_lookup (p : Precondition) : bool :=
  match p with
  | InvertedPrecondition q => guards_every_lookup q
  | SuitLowerThanMyLastSuit => false
  | MaxLevel _ => false
  | Jump FromMyLastBid _ => false
  | Jump FromPartnerLastBid _ => false
  | _ => true
  end.

(** Constraint data: nothing, a constraint object, an expression, or a
    sequence of constraint data. *)
Fixpoint is_constraint_data (v : pyval) : bool :=
  match v with
  | PNone | PConstraint _ | PExpr _ => true
  | PSeq items => forallb is_constraint_data items
  | _ => false
  end.

(** The documented forms of an entry of the constraints mapping: a bare
    constraint or expression, or the pair of constraint data and a
    priority. *)
Definition is_per_call_entry (v : pyval) : bool :=
  match v with
  | PConstraint _ | PExpr _ => true
  | PSeq [d; PEnum _] => is_constraint_data d
  | _ => false
  end.

(** The constraint data of an entry, without its priority. *)
Definition entry_constraint (v : pyval) : pyval :=
  match v with
  | PSeq [d; PEnum _] => d
  | _ => v
  end.

(** The per-call constraint data a rule declares for a call; [PNone] when it
    declares none. *)
Definition per_call_data (self : Rule) (call : Call) : pyval :=
  match constraints self !! call.name call with
  | Some v => entry_constraint v
  | None => PNone
  end.

(** What constraint data means for a hand: every expression in it holds;
    absent data holds trivially. *)
Fixpoint data_holds (m : z3.Model) (history : History) (call : Call)
         (v : pyval) : bool :=
  match v with
  | PConstraint c => z3.holds m (expr c history call)
  | PExpr e => z3.holds m e
  | PSeq items => forallb (data_holds m history call) items
  | _ => true
  end.

(** The priority an entry of the constraints mapping declares for the
    call, if it declares one. *)
Definition per_call_priority (self : Rule) (call : Call) : option EnumValue :=
  match constraints self !! call.name call with
  | Some (PSeq [_; PEnum p]) => Some p
  | _ => None
  end.

(** The per-call override priority when one is declared, else the rule's
    default priority. *)
Definition fallback_priority (self : Rule) (call : Call) : pyval :=
  match per_call_priority self call with
  | Some p => PEnum p
  | None => rule.priority_value self
  end.

Definition impossible (solver : Solver) (cp : z3.ExprRef * EnumValue) : Prop :=
  is_sat solver cp.1 = false.

(** Whether a constraints entry carries a priority of its own. *)
Definition supplies_priority (v : pyval) : bool :=
  match v with
  | PSeq items =>
      match last items with
      | Some (PEnum _) => true
      | _ => false
      end
  | _ => false
  end.

(** A rule that nothing gives a priority: none of its own, none in an
    entry of the constraints mapping, no conditional priorities. *)
Definition no_resolvable_priority (self : Rule) : Prop :=
  priority self = None
  /\ (forall k v, constraints self !! k = Some v -> supplies_priority v = false)
  /\ conditional_priorities self = [].

(** A rule for Double with a bare expression and no priority anywhere. *)
Definition unranked_double : Rule :=
  {| name := "UnrankedDouble";
     preconditions := [];
     call_name := None;
     call_names := None;
     constraints :=
       {[ "X" := PExpr (z3.Ge catalog.hearts (z3.IntVal 4)) ]};
     shared_constraints := PSeq [];
     conditional_priorities := [];
     priority := None |}.

(** Whether every precondition of the rule is satisfied on the call. *)
Definition accepts (self : Rule) (history : History) (c : Call) : bool :=
  match rule._fits_preconditions self history c with
  | Ok true => true
  | _ => false
  end.

(** The call names a rule declares: its [call_name], else its
    [call_names], else the keys of its constraints mapping. *)
Definition declared_call_names (self : Rule) : option (list string) :=
  if rule.has_call_name self then Some [default "" (call_name self)]
  else if rule.has_call_names self then Some (default [] (call_names self))
  else if rule.has_constraints self
       then Some (map_to_list (constraints self)).*1
  else None.

(** C2 as stated: the rule yields exactly the legal calls on which every
    precondition is satisfied. *)
Definition yields_fitting_legal_calls (explorer : CallExplorer) (self : Rule)
           (history : History) : Prop :=
  exists accepted,
    rule.calls_over explorer self history = Ok accepted
    /\ forall c,
        c ∈ accepted
        <-> c ∈ possible_calls_over explorer (call_history history)
            /\ rule._fits_preconditions self history c = Ok true.

(** The bid [lc sc] outranks the bid [lr sr]: a higher level, or the same
    level in a higher strain. *)
Definition outranks (lc : Level) (sc : suit.t) (lr : Level) (sr : suit.t)
  : Prop :=
  level_number lr < level_number lc
  \/ (level_number lc = level_number lr /\ suit.index sr < suit.index sc).

(** The preconditions that look only at suit bids. *)
Definition suit_only : list Precondition :=
  [RaiseOfPartnersLastSuit; SuitLowerThanMyLastSuit; RebidSameSuit;
   UnbidSuit].

(** Whether a jump can be measured: the candidate is no Pass and the
    reference call is a contract. *)
Definition comparable (reference : jump_reference) (history : History)
           (call : Call) : bool :=
  negb (call.is_pass call)
  && match jump._last_call reference history with
     | Some last_call => call.is_contract last_call
     | None => false
     end.

(** The bidder opened [1H], LHO passed, partner answered [1S], RHO
    passed. *)
Definition my_1H_partner_1S : History :=
  {| call_history := [Bid L1 suit.HEARTS; Pass; Bid L1 suit.SPADES; Pass];
     annotations := [annotations.Opening];
     annotations_for_position :=
       fun p => match p with
                | positions.Me => [annotations.Opening]
                | _ => []
                end;
     view_for :=
       fun p => match p with
                | positions.Me =>
                    examples.made (Bid L1 suit.HEARTS) [annotations.Opening]
                | positions.Partner => examples.made (Bid L1 suit.SPADES) []
                | _ => examples.made Pass []
                end;
     is_unbid_suit :=
       fun s => bool_decide (s = suit.CLUBS \/ s = suit.DIAMONDS) |}.

(** Constraint data [_exprs_from_constraints] can flatten: anything false,
    a constraint, an expression, or a sequence of such. *)
Fixpoint flattenable (v : pyval) : bool :=
  if negb (truthy v) then true else
  match v with
  | PConstraint _ | PExpr _ => true
  | PSeq items => forallb flattenable items
  | _ => false
  end.

(** A precondition returns a true value. *)
Definition holds_on (history : History) (call : Call) (p : Precondition)
  : Prop :=
  exists v, fits p history call = Ok v /\ truthy v = true.

(** A rule whose second precondition would raise at the start of the
    auction. *)
Definition guarded_by_competition : Rule :=
  {| name := "GuardedByCompetition";
     preconditions := [NoCompetition; SuitLowerThanMyLastSuit];
     call_name := None;
     call_names := Some ["2C"; "2D"];
     constraints := ∅;
     shared_constraints := PSeq [];
     conditional_priorities := [];
     priority := Some catalog.TwoClubNewSuitResponse |}.

(** ** The class hierarchy ([rules.py], end of file) *)

(** A class with the classes derived from it, as [__subclasses__()] lists
    them. *)
Inductive Class : Type :=
| class (class_name : string) (subclasses : list Class).

Definition __subclasses__ (c : Class) : list Class :=
  match c with class _ subclasses => subclasses end.

(** [_get_subclasses]: the direct subclasses, then what the function finds
    below each of them, in order. *)
Fixpoint _get_subclasses (base_class : Class) : list Class :=
  match base_class with
  | class _ subclasses => subclasses ++ flat_map _get_subclasses subclasses
  end.

(** [_concrete_rule_classes], for the hierarchy below [Rule]. *)
Definition _concrete_rule_classes (Rule_class : Class) : list Class :=
  List.filter (fun rule => match __subclasses__ rule with
                           | [] => true
                           | _ => false
                           end)
              (_get_subclasses Rule_class).

(** [d] is derived from [base], directly or not. *)
Inductive descends (base : Class) : Class -> Prop :=
| descends_child (c : Class) :
    c ∈ __subclasses__ base -> descends base c
| descends_further (c d : Class) :
    c ∈ __subclasses__ base -> descends c d -> descends base d.

(** The number of classes in a hierarchy, its root included. *)
Fixpoint class_count (c : Class) : nat :=
  match c with
  | class _ subclasses => S (list_sum (List.map class_count subclasses))
  end.

(** ** The rule catalog ([rules.py], lines 140-607) *)

(** Modelled from the spec: the names [rules.py] takes from [model.py] and
    [constraints.py], whose definitions are not part of the two files: two
    expressions, two integer attributes of the hand, and the constraint
    classes with their constructor argument. *)
Record Imports : Type := {
  rule_of_twenty : z3.ExprRef;
  balanced : z3.ExprRef;
  number_of_aces : z3.ArithRef;
  number_of_kings : z3.ArithRef;
  MinimumCombinedLength : Z -> Constraint;
  MinimumCombinedPoints : Z -> Constraint;
  MinLength : Z -> Constraint;
  ThreeOfTheTopFive : Constraint;
}.

Module sayc.

Import catalog.

(** The place of a key in an enumeration. *)
Fixpoint position (keys : list string) (k : string) : nat :=
  match keys with
  | [] => 0
  | x :: rest => if String.eqb x k then 0 else S (position rest k)
  end.

(** Modelled from the spec: [enum.Enum(keys...)], read at one of its
    keys. *)
Definition Enum (enumtype : string) (keys : list string) (k : string)
  : EnumValue :=
  {| enumtype := enumtype; index := position keys k; key := k |}.

Definition opening_priorities : string -> EnumValue :=
  Enum "opening_priorities"
       ["StrongTwoClubs"; "NoTrumpOpening"; "LongestMajor"; "HigherMajor";
        "LowerMajor"; "LongestMinor"; "HigherMinor"; "LowerMinor"].

Definition response_priorities : string -> EnumValue :=
  Enum "response_priorities"
       ["MajorLimitRaise"; "MajorMinimumRaise"; "LongestNewMajor";
        "OneSpadeWithFiveResponse"; "OneHeartWithFiveResponse";
        "OneDiamondResponse"; "OneHeartWithFourResponse";
        "OneSpadeWithFourResponse"; "TwoHeartNewSuitResponse";
        "TwoSpadeNewSuitResponse"; "TwoClubNewSuitResponse";
        "TwoDiamondNewSuitResponse"; "OneNotrumpResponse"].

Definition nt_response_priorities : string -> EnumValue :=
  Enum "nt_response_priorities"
       ["NoTrumpJumpRaise"; "NoTrumpMinimumRaise";
        "JacobyTransferToLongerMajor";
        "JacobyTransferToSpadesWithGameForcingValues";
        "JacobyTransferToHeartsWithGameForcingValues";
        "JacobyTransferToHearts"; "JacobyTransferToSpades"; "Stayman";
        "ClubBust"].

Definition stayman_response_priorities : string -> EnumValue :=
  Enum "stayman_response_priorities"
       ["HeartStaymanResponse"; "SpadeStaymanResponse";
        "DiamondStaymanResponse"; "PassStaymanResponse"].

Definition overcall_priorities : string -> EnumValue :=
  Enum "overcall_priorities"
       ["DirectOvercall"; "FourLevelPremptive"; "ThreeLevelPremptive";
        "TwoLevelPremptive"].

Definition preempt_priorities : string -> EnumValue :=
  Enum "preempt_priorities"
       ["FourLevelPremptive"; "ThreeLevelPremptive"; "TwoLevelPremptive"].

Definition feature_asking_priorites : string -> EnumValue :=
  Enum "feature_asking_priorites" ["Gerber"; "Blackwood"].

(** [x >= n], [x <= n], [x == n] against an integer. *)
Definition ge (x : z3.ArithRef) (n : Z) : z3.ExprRef := z3.Ge x (z3.IntVal n).
Definition le (x : z3.ArithRef) (n : Z) : z3.ExprRef := z3.Le x (z3.IntVal n).
Definition eq (x : z3.ArithRef) (n : Z) : z3.ExprRef := z3.Eq x (z3.IntVal n).

(** A class with the attributes of [Rule] itself. *)
Definition Rule_defaults (class_name : string) : Rule :=
  {| name := class_name;
     preconditions := [];
     call_name := None;
     call_names := None;
     constraints := ∅;
     shared_constraints := PSeq [];
     conditional_priorities := [];
     priority := None |}.

Section classes.

Variable m : Imports.

(** The preconditions of the classes that are not instantiated. *)
Definition Opening_preconditions : list Precondition := [NoOpening].

Definition RaiseResponse_preconditions : list Precondition :=
  Response_preconditions
  ++ [RaiseOfPartnersLastSuit;
      LastBidHasAnnotation positions.Partner annotations.Opening].

Definition NoTrumpResponse_preconditions : list Precondition :=
  Response_preconditions
  ++ [LastBidHasAnnotation positions.Partner annotations.Opening;
      LastBidHasAnnotation positions.Partner annotations.NoTrumpSystemsOn].

Definition StaymanResponse_preconditions : list Precondition :=
  [] ++ [LastBidHasAnnotation positions.Partner annotations.Stayman].

Definition DirectOvercall_preconditions : list Precondition :=
  [] ++ [LastBidHasAnnotation positions.RHO annotations.Opening].

Definition three_of_the_top_five (length : Z) : pyval :=
  PSeq [PConstraint (MinLength m length);
        PConstraint (ThreeOfTheTopFive m);
        PExpr (ge points 5)].

Definition OneClubOpening : Rule :=
  {| name := "OneClubOpening";
     preconditions := Opening_preconditions;
     call_name := Some "1C";
     call_names := None;
     constraints := ∅;
     shared_constraints :=
       PSeq [PExpr (rule_of_twenty m); PExpr (ge clubs 3)];
     conditional_priorities :=
       [(z3.Or [z3.Gt clubs diamonds; z3.And [eq clubs 3; eq diamonds 3]],
         opening_priorities "LongestMinor")];
     priority := Some (opening_priorities "LowerMinor") |}.

Definition OneDiamondOpening : Rule :=
  {| name := "OneDiamondOpening";
     preconditions := Opening_preconditions;
     call_name := Some "1D";
     call_names := None;
     constraints := ∅;
     shared_constraints :=
       PSeq [PExpr (rule_of_twenty m); PExpr (ge diamonds 3)];
     conditional_priorities :=
       [(z3.Gt diamonds clubs, opening_priorities "LongestMinor")];
     priority := Some (opening_priorities "HigherMinor") |}.

Definition OneHeartOpening : Rule :=
  {| name := "OneHeartOpening";
     preconditions := Opening_preconditions;
     call_name := Some "1H";
     call_names := None;
     constraints := ∅;
     shared_constraints :=
       PSeq [PExpr (rule_of_twenty m); PExpr (ge hearts 5)];
     conditional_priorities :=
       [(z3.Gt hearts spades, opening_priorities "LongestMajor")];
     priority := Some (opening_priorities "LowerMajor") |}.

Definition OneSpadeOpening : Rule :=
  {| name := "OneSpadeOpening";
     preconditions := Opening_preconditions;
     call_name := Some "1S";
     call_names := None;
     constraints := ∅;
     shared_constraints :=
       PSeq [PExpr (rule_of_twenty m); PExpr (ge spades 5)];
     conditional_priorities :=
       [(z3.Gt spades hearts, opening_priorities "LongestMajor")];
     priority := Some (opening_priorities "HigherMajor") |}.

Definition NoTrumpOpening : Rule :=
  {| name := "NoTrumpOpening";
     preconditions := Opening_preconditions;
     call_name := None;
     call_names := None;
     constraints :=
       {[ "1N" := PExpr (z3.And [ge points 15; le points 17; balanced m]);
          "2N" := PExpr (z3.And [ge points 20; le points 21; balanced m]) ]};
     shared_constraints := PSeq [];
     conditional_priorities := [];
     priority := Some (opening_priorities "NoTrumpOpening") |}.

Definition StrongTwoClubs : Rule :=
  {| name := "StrongTwoClubs";
     preconditions := Opening_preconditions;
     call_name := Some "2C";
     call_names := None;
     constraints := ∅;
     shared_constraints := PExpr (ge points 22);
     conditional_priorities := [];
     priority := Some (opening_priorities "StrongTwoClubs") |}.

Definition OneSpadeResponse : Rule :=
  {| name := "OneSpadeResponse";
     preconditions := Response_preconditions;
     call_name := Some "1S";
     call_names := None;
     constraints := ∅;
     shared_constraints := PSeq [PExpr (ge points 6); PExpr (ge spades 4)];
     conditional_priorities :=
       [(ge spades 5, response_priorities "OneSpadeWithFiveResponse")];
     priority := Some (response_priorities "OneSpadeWithFourResponse") |}.

Definition OneNotrumpResponse : Rule :=
  {| name := "OneNotrumpResponse";
     preconditions := Response_preconditions;
     call_name := Some "1N";
     call_names := None;
     constraints := ∅;
     shared_constraints := PExpr (ge points 6);
     conditional_priorities := [];
     priority := Some (response_priorities "OneNotrumpResponse") |}.

Definition MajorMinimumRaise : Rule :=
  {| name := "MajorMinimumRaise";
     preconditions := RaiseResponse_preconditions;
     call_name := None;
     call_names := Some ["2H"; "2S"];
     constraints := ∅;
     shared_constraints :=
       PSeq [PConstraint (MinimumCombinedLength m 8); PExpr (ge points 6)];
     conditional_priorities := [];
     priority := Some (response_priorities "MajorMinimumRaise") |}.

Definition MajorLimitRaise : Rule :=
  {| name := "MajorLimitRaise";
     preconditions := RaiseResponse_preconditions;
     call_name := None;
     call_names := Some ["3H"; "3S"];
     constraints := ∅;
     shared_constraints :=
       PSeq [PConstraint (MinimumCombinedLength m 8); PExpr (ge points 10)];
     conditional_priorities := [];
     priority := Some (response_priorities "MajorLimitRaise") |}.

(** [BasicStayman], which [Stayman] and its stolen variants derive from. *)
Definition BasicStayman (class_name : string)
           (more_preconditions : list Precondition)
           (constraints : gmap string pyval) : Rule :=
  {| name := class_name;
     preconditions := NoTrumpResponse_preconditions ++ more_preconditions;
     call_name := None;
     call_names := None;
     constraints := constraints;
     shared_constraints := PSeq [PExpr (z3.Or [ge hearts 4; ge spades 4])];
     conditional_priorities := [];
     priority := Some (nt_response_priorities "Stayman") |}.

Definition Stayman : Rule :=
  BasicStayman "Stayman" [NotJumpFromPartnerLastBid]
    {[ "2C" := PConstraint (MinimumCombinedPoints m 23);
       "3C" := PConstraint (MinimumCombinedPoints m 25) ]}.

Definition StolenTwoClubStayman : Rule :=
  BasicStayman "StolenTwoClubStayman" [LastBidWas positions.RHO "2C"]
    {[ "X" := PConstraint (MinimumCombinedPoints m 23) ]}.

Definition StolenThreeClubStayman : Rule :=
  BasicStayman "StolenThreeClubStayman" [LastBidWas positions.RHO "3C"]
    {[ "X" := PConstraint (MinimumCombinedPoints m 25) ]}.

Definition JacobyTransferToHearts : Rule :=
  {| name := "JacobyTransferToHearts";
     preconditions := NoTrumpResponse_preconditions;
     call_name := Some "2D";
     call_names := None;
     constraints := ∅;
     shared_constraints := PExpr (ge hearts 5);
     conditional_priorities :=
       [(z3.Gt hearts spades,
         nt_response_priorities "JacobyTransferToLongerMajor");
        (z3.And [z3.Eq hearts spades; ge points 10],
         nt_response_priorities
           "JacobyTransferToHeartsWithGameForcingValues")];
     priority := Some (nt_response_priorities "JacobyTransferToHearts") |}.

Definition JacobyTransferToSpades : Rule :=
  {| name := "JacobyTransferToSpades";
     preconditions := NoTrumpResponse_preconditions;
     call_name := Some "2H";
     call_names := None;
     constraints := ∅;
     shared_constraints := PExpr (ge spades 5);
     conditional_priorities :=
       [(z3.Gt spades hearts,
         nt_response_priorities "JacobyTransferToLongerMajor");
        (z3.And [z3.Eq hearts spades; ge points 10],
         nt_response_priorities
           "JacobyTransferToSpadesWithGameForcingValues")];
     priority := Some (nt_response_priorities "JacobyTransferToSpades") |}.

Definition NaturalStaymanResponse : Rule :=
  {| name := "NaturalStaymanResponse";
     preconditions :=
       StaymanResponse_preconditions ++ [NotJumpFromPartnerLastBid];
     call_name := None;
     call_names := None;
     constraints :=
       {[ "2H" := PSeq [PExpr (ge hearts 4);
                        PEnum (stayman_response_priorities
                                 "HeartStaymanResponse")];
          "2S" := PSeq [PExpr (ge spades 4);
                        PEnum (stayman_response_priorities
                                 "SpadeStaymanResponse")];
          "3H" := PSeq [PExpr (ge hearts 4);
                        PEnum (stayman_response_priorities
                                 "HeartStaymanResponse")];
          "3S" := PSeq [PExpr (ge spades 4);
                        PEnum (stayman_response_priorities
                                 "SpadeStaymanResponse")] ]};
     shared_constraints := PSeq [];
     conditional_priorities := [];
     priority := None |}.

Definition PassStaymanResponse : Rule :=
  {| name := "PassStaymanResponse";
     preconditions := StaymanResponse_preconditions;
     call_name := Some "P";
     call_names := None;
     constraints := ∅;
     shared_constraints := PExpr NO_CONSTRAINTS;
     conditional_priorities := [];
     priority := Some (stayman_response_priorities "PassStaymanResponse") |}.

Definition DiamondStaymanResponse : Rule :=
  {| name := "DiamondStaymanResponse";
     preconditions :=
       StaymanResponse_preconditions ++ [NotJumpFromPartnerLastBid];
     call_name := None;
     call_names := None;
     constraints :=
       {[ "2D" := PExpr NO_CONSTRAINTS; "3D" := PExpr NO_CONSTRAINTS ]};
     shared_constraints := PSeq [];
     conditional_priorities := [];
     priority :=
       Some (stayman_response_priorities "DiamondStaymanResponse") |}.

Definition StolenHeartStaymanResponse : Rule :=
  {| name := "StolenHeartStaymanResponse";
     preconditions :=
       StaymanResponse_preconditions ++ [LastBidWas positions.RHO "2H"];
     call_name := None;
     call_names := None;
     constraints := {[ "X" := PExpr (ge hearts 4) ]};
     shared_constraints := PSeq [];
     conditional_priorities := [];
     priority := Some (stayman_response_priorities "HeartStaymanResponse") |}.

Definition StolenSpadeStaymanResponse : Rule :=
  {| name := "StolenSpadeStaymanResponse";
     preconditions :=
       StaymanResponse_preconditions ++ [LastBidWas positions.RHO "2S"];
     call_name := None;
     call_names := None;
     constraints := {[ "X" := PExpr (ge spades 4) ]};
     shared_constraints := PSeq [];
     conditional_priorities := [];
     priority := Some (stayman_response_priorities "SpadeStaymanResponse") |}.

Definition OneLevelOvercall : Rule :=
  {| name := "OneLevelOvercall";
     preconditions := DirectOvercall_preconditions;
     call_name := None;
     call_names := Some ["1D"; "1H"; "1S"];
     constraints := ∅;
     shared_constraints :=
       PSeq [PConstraint (MinLength m 5); PExpr (ge points 8)];
     conditional_priorities := [];
     priority := Some (overcall_priorities "DirectOvercall") |}.

(** The three preemptive openings. *)
Definition PremptiveOpen (class_name : string) (names : list string)
           (length : Z) (priority : string) : Rule :=
  {| name := class_name;
     preconditions := Opening_preconditions;
     call_name := None;
     call_names := Some names;
     constraints := ∅;
     shared_constraints := three_of_the_top_five length;
     conditional_priorities := [];
     priority := Some (preempt_priorities priority) |}.

Definition TwoLevelPremptiveOpen : Rule :=
  PremptiveOpen "TwoLevelPremptiveOpen" ["2D"; "2H"; "2S"] 6
                "TwoLevelPremptive".
Definition ThreeLevelPremptiveOpen : Rule :=
  PremptiveOpen "ThreeLevelPremptiveOpen" ["3C"; "3D"; "3H"; "3S"] 7
                "ThreeLevelPremptive".
Definition FourLevelPremptiveOpen : Rule :=
  PremptiveOpen "FourLevelPremptiveOpen" ["4C"; "4D"; "4H"; "4S"] 8
                "FourLevelPremptive".

(** The three preemptive overcalls. *)
Definition PremptiveOvercall (class_name : string) (names : list string)
           (length : Z) (priority : string) : Rule :=
  {| name := class_name;
     preconditions :=
       DirectOvercall_preconditions ++ [JumpFromLastContract None];
     call_name := None;
     call_names := Some names;
     constraints := ∅;
     shared_constraints := three_of_the_top_five length;
     conditional_priorities := [];
     priority := Some (overcall_priorities priority) |}.

Definition TwoLevelPremptiveOvercall : Rule :=
  PremptiveOvercall "TwoLevelPremptiveOvercall" ["2C"; "2D"; "2H"; "2S"] 6
                    "TwoLevelPremptive".
Definition ThreeLevelPremptiveOvercall : Rule :=
  PremptiveOvercall "ThreeLevelPremptiveOvercall" ["3C"; "3D"; "3H"; "3S"] 7
                    "ThreeLevelPremptive".
Definition FourLevelPremptiveOvercall : Rule :=
  PremptiveOvercall "FourLevelPremptiveOvercall" ["4C"; "4D"; "4H"; "4S"] 8
                    "FourLevelPremptive".

(** [Gerber], which the two Gerber calls derive from. *)
Definition Gerber (class_name : string) (call_name : string)
           (more_preconditions : list Precondition) : Rule :=
  {| name := class_name;
     preconditions := [] ++ more_preconditions;
     call_name := Some call_name;
     call_names := None;
     constraints := ∅;
     shared_constraints := PExpr NO_CONSTRAINTS;
     conditional_priorities := [];
     priority := Some (feature_asking_priorites "Gerber") |}.

Definition GerberForAces : Rule :=
  Gerber "GerberForAces" "4C"
         [LastBidHasStrain positions.Partner (OneStrain suit.NOTRUMP);
          InvertedPrecondition
            (LastBidHasAnnotation positions.Partner annotations.Artificial)].

Definition GerberForKings : Rule :=
  Gerber "GerberForKings" "5C"
         [LastBidHasAnnotation positions.Me annotations.Gerber].

Definition ResponseToGerber : Rule :=
  {| name := "ResponseToGerber";
     preconditions :=
       [] ++ [LastBidHasAnnotation positions.Partner annotations.Gerber;
              NotJumpFromPartnerLastBid];
     call_name := None;
     call_names := None;
     constraints :=
       {[ "4D" := PExpr (z3.Or [eq (number_of_aces m) 0;
                                eq (number_of_aces m) 4]);
          "4H" := PExpr (eq (number_of_aces m) 1);
          "4S" := PExpr (eq (number_of_aces m) 2);
          "4N" := PExpr (eq (number_of_aces m) 3);
          "5D" := PExpr (z3.Or [eq (number_of_kings m) 0;
                                eq (number_of_kings m) 4]);
          "5H" := PExpr (eq (number_of_kings m) 1);
          "5S" := PExpr (eq (number_of_kings m) 2);
          "5N" := PExpr (eq (number_of_kings m) 3) ]};
     shared_constraints := PSeq [];
     conditional_priorities := [];
     priority := Some (feature_asking_priorites "Gerber") |}.

(** The classes of [rules.py] that have no subclasses, with their
    attributes, in the order of the file. *)
Definition concrete : list Rule :=
  [OneClubOpening; OneDiamondOpening; OneHeartOpening; OneSpadeOpening;
   NoTrumpOpening; StrongTwoClubs;
   OneDiamondResponse; OneHeartResponse; OneSpadeResponse;
   OneNotrumpResponse; MajorMinimumRaise; MajorLimitRaise;
   NewSuitAtTheTwoLevel;
   Stayman; StolenTwoClubStayman; StolenThreeClubStayman;
   JacobyTransferToHearts; JacobyTransferToSpades;
   NaturalStaymanResponse; PassStaymanResponse; DiamondStaymanResponse;
   StolenHeartStaymanResponse; StolenSpadeStaymanResponse;
   OneLevelOvercall;
   TwoLevelPremptiveOpen; ThreeLevelPremptiveOpen; FourLevelPremptiveOpen;
   TwoLevelPremptiveOvercall; ThreeLevelPremptiveOvercall;
   FourLevelPremptiveOvercall;
   GerberForAces; GerberForKings; ResponseToGerber].

(** The attributes of a class, by its name. *)
Definition attributes (class_name : string) : option Rule :=
  List.find (fun r => String.eqb (name r) class_name) concrete.

End classes.

Definition leaf (class_name : string) : Class := class class_name [].

(** The classes derived from [Rule] in [rules.py], each with its
    subclasses in the order of the file. *)
Definition hierarchy : Class :=
  class "Rule"
    [class "Opening"
       [leaf "OneClubOpening"; leaf "OneDiamondOpening";
        leaf "OneHeartOpening"; leaf "OneSpadeOpening";
        leaf "NoTrumpOpening"; leaf "StrongTwoClubs";
        leaf "TwoLevelPremptiveOpen"; leaf "ThreeLevelPremptiveOpen";
        leaf "FourLevelPremptiveOpen"];
     class "Response"
       [leaf "OneDiamondResponse"; leaf "OneHeartResponse";
        leaf "OneSpadeResponse"; leaf "OneNotrumpResponse";
        class "RaiseResponse"
          [leaf "MajorMinimumRaise"; leaf "MajorLimitRaise"];
        leaf "NewSuitAtTheTwoLevel";
        class "NoTrumpResponse"
          [class "BasicStayman"
             [leaf "Stayman"; leaf "StolenTwoClubStayman";
              leaf "StolenThreeClubStayman"];
           class "JacobyTransfer"
             [leaf "JacobyTransferToHearts";
              leaf "JacobyTransferToSpades"]]];
     class "StaymanResponse"
       [leaf "NaturalStaymanResponse"; leaf "PassStaymanResponse";
        leaf "DiamondStaymanResponse"; leaf "StolenHeartStaymanResponse";
        leaf "StolenSpadeStaymanResponse"];
     class "DirectOvercall"
       [leaf "OneLevelOvercall"; leaf "TwoLevelPremptiveOvercall";
        leaf "ThreeLevelPremptiveOvercall";
        leaf "FourLevelPremptiveOvercall"];
     class "Gerber" [leaf "GerberForAces"; leaf "GerberForKings"];
     leaf "ResponseToGerber"].

(** [rule()]: an instance has the attributes of its class, once [__init__]
    has accepted them. *)
Definition instantiate (m : Imports) (c : Class) : result Rule :=
  match c with
  | class class_name _ =>
      match attributes m class_name with
      | Some self => _ ← rule.__init__ self; Ok self
      | None => Raise AttributeError
      end
  end.

Fixpoint instantiate_all (m : Imports) (classes : list Class)
  : result (list Rule) :=
  match classes with
  | [] => Ok []
  | c :: rest =>
      r ← instantiate m c;
      rs ← instantiate_all m rest;
      Ok (r :: rs)
  end.

(** [StandardAmericanYellowCard.rules]:
    [[rule() for rule in _concrete_rule_classes()]]. *)
Definition rules (m : Imports) : result (list Rule) :=
  instantiate_all m (_concrete_rule_classes hierarchy).

End sayc.

(** The calls a rule names: what [_possible_calls_over] returns for a rule
    that declares names, whatever the history. *)
Definition named_calls (self : Rule) : result (list Call) :=
  match declared_call_names self with
  | Some names => rule.from_strings names
  | None => Raise ValueError
  end.

(** A rule is ready for a call: its constraint data is well formed for the
    call, and the call has a priority to fall back on. *)
Definition ready_for (self : Rule) (call : Call) : bool :=
  is_constraint_data (shared_constraints self)
  && match constraints self !! call.name call with
     | Some v => is_per_call_entry v
     | None => true
     end
  && truthy (fallback_priority self call).

(** A rule is ready for every call it names. *)
Definition ready (self : Rule) : bool :=
  match named_calls self with
  | Ok calls =>
      match calls with [] => false | _ => forallb (ready_for self) calls end
  | Raise _ => false
  end.

(** An interpretation of the imported names, for examples: the two
    expressions are boolean attributes of the hand, and every constraint
    asks for points. *)
Definition sample_imports : Imports :=
  {| rule_of_twenty := z3.Bool "rule_of_twenty";
     balanced := z3.Bool "balanced";
     number_of_aces := z3.Int "number_of_aces";
     number_of_kings := z3.Int "number_of_kings";
     MinimumCombinedLength :=
       fun n => {| expr := fun _ _ => sayc.ge catalog.points n |};
     MinimumCombinedPoints :=
       fun n => {| expr := fun _ _ => sayc.ge catalog.points n |};
     MinLength :=
       fun n => {| expr := fun _ _ => sayc.ge catalog.points n |};
     ThreeOfTheTopFive :=
       {| expr := fun _ _ => sayc.ge catalog.points 0 |} |}.

(** * Properties *)

(** ** Preconditions *)

Lemma last_contract_is_contract calls c :
  last_contract calls = Some c -> call.is_contract c = true.
Proof.
  unfold last_contract. intros Hf.
  apply List.find_some in Hf. tauto.
Qed.

Lemma last_contract_exists calls c0 :
  c0 ∈ calls -> call.is_contract c0 = true ->
  exists c, last_contract calls = Some c.
Proof.
  intros Hin Hc. unfold last_contract.
  destruct (List.find call.is_contract (rev calls)) as [c|] eqn:Hf.
  - eauto.
  - exfalso. rewrite (List.find_none _ _ Hf c0) in Hc; [discriminate|].
    apply in_rev. rewrite rev_involutive. by apply list_elem_of_In.
Qed.

Lemma jump_size_same_call l s :
  jump._jump_size (Bid l s) (Bid l s) = Ok (-1).
Proof.
  unfold jump._jump_size. simpl.
  rewrite Z.leb_refl. simpl. f_equal. lia.
Qed.

(** C6. [NoCompetition.fits] never raises, and its value is true exactly
    when RHO has a last call and that call is not Pass. *)
Theorem NoCompetition_fits_iff (history : History) (call : Call) :
  exists v,
    fits NoCompetition history call = Ok v
    /\ (truthy v = true <->
        exists c, last_call (rho history) = Some c
                  /\ call.is_pass c = false).
Proof.
  simpl. eexists. split; [reflexivity|].
  destruct (last_call (rho history)) as [c|]; simpl.
  - rewrite negb_true_iff. split.
    + intros Hp. exists c. by split.
    + intros (c' & [= <-] & Hp). exact Hp.
  - split; [discriminate|]. intros (c' & [=] & _).
Qed.

(** C9. When the call history holds a contract, a Double is compared, as
    the last contract, against the last contract: the jump size is -1,
    [JumpFromLastContract] fits and [NotJumpFromLastContract] does not. *)
Theorem Double_always_jumps_from_last_contract (history : History) :
  (exists c0, c0 ∈ call_history history /\ call.is_contract c0 = true) ->
  exists c,
    last_contract (call_history history) = Some c
    /\ jump.rewritten history Double = Some c
    /\ jump._last_call FromLastContract history = Some c
    /\ jump._jump_size c c = Ok (-1)
    /\ fits (JumpFromLastContract None) history Double = Ok (PBool true)
    /\ fits NotJumpFromLastContract history Double = Ok (PBool false).
Proof.
  intros (c0 & Hin & Hc0).
  destruct (last_contract_exists _ _ Hin Hc0) as [c Hc].
  pose proof (last_contract_is_contract _ _ Hc) as Hk.
  destruct c as [| | |l s]; try discriminate.
  exists (Bid l s). repeat split; try assumption.
  - apply jump_size_same_call.
  - simpl. unfold jump.fits, jump.rewritten. simpl. rewrite Hc. simpl.
    by rewrite jump_size_same_call.
  - simpl. unfold jump.fits, jump.rewritten. simpl. rewrite Hc. simpl.
    by rewrite jump_size_same_call.
Qed.

Lemma Double_always_jumps_from_last_contract_witness :
  fits (JumpFromLastContract None) examples.rho_opened_1H Double
  = Ok (PBool true)
  /\ fits NotJumpFromLastContract examples.rho_opened_1H Double
     = Ok (PBool false).
Proof.
  destruct (Double_always_jumps_from_last_contract examples.rho_opened_1H)
    as (c & _ & _ & _ & _ & Hj & Hn).
  - exists (Bid L1 suit.HEARTS). split; [|reflexivity].
    simpl. apply list_elem_of_here.
  - split; assumption.
Defined.

(** The size of the jump from the reference bid [lr sr] to the candidate
    bid [lc sc], as [_jump_size] computes it. *)
Lemma jump_size_bids lr sr lc sc :
  jump._jump_size (Bid lr sr) (Bid lc sc)
  = Ok (if suit.index sc <=? suit.index sr
        then level_number lc - level_number lr - 1
        else level_number lc - level_number lr).
Proof.
  unfold jump._jump_size. simpl.
  destruct (suit.index sc <=? suit.index sr); reflexivity.
Qed.

Lemma rewritten_is_bid history call c :
  call.is_pass call = false ->
  jump.rewritten history call = Some c ->
  call.is_contract c = true.
Proof.
  unfold jump.rewritten. destruct call; simpl; try discriminate.
  - intros _. apply last_contract_is_contract.
  - intros _. apply last_contract_is_contract.
  - intros _ [= <-]. reflexivity.
Qed.

(** C3. The Jump family.  Pass never fits.  A Double or Redouble stands for
    the last contract, any other candidate for itself.  Without a reference
    call that is a contract the result is false.  Otherwise the size is
    [level - reference level - 1] when the candidate's strain is at most the
    reference's and [level - reference level] when it is above, and the
    result is [size != 0], or [exact_size == size] when an exact size was
    given. *)
Theorem Jump_fits_spec (reference : jump_reference) (exact_size : option Z)
        (history : History) (call : Call) :
  (call.is_pass call = true ->
   fits (Jump reference exact_size) history call = Ok (PBool false))
  /\ (call.is_double call = true \/ call.is_redouble call = true ->
      jump.rewritten history call = last_contract (call_history history))
  /\ (call.is_contract call = true ->
      jump.rewritten history call = Some call)
  /\ ((forall r, jump._last_call reference history = Some r ->
                 call.is_contract r = false) ->
      fits (Jump reference exact_size) history call = Ok (PBool false))
  /\ (forall lr sr c,
         call.is_pass call = false ->
         jump._last_call reference history = Some (Bid lr sr) ->
         jump.rewritten history call = Some c ->
         exists lc sc size,
           c = Bid lc sc
           /\ size = (if suit.index sc <=? suit.index sr
                      then level_number lc - level_number lr - 1
                      else level_number lc - level_number lr)
           /\ jump._jump_size (Bid lr sr) c = Ok size
           /\ fits (Jump reference exact_size) history call
              = Ok (PBool match exact_size with
                          | None => negb (size =? 0)
                          | Some n => n =? size
                          end)).
Proof.
  repeat split.
  - intros Hp. simpl. unfold jump.fits. by rewrite Hp.
  - unfold jump.rewritten. by intros [-> | ->]; rewrite ?orb_true_r.
  - unfold jump.rewritten. by destruct call.
  - intros Hr. simpl. unfold jump.fits.
    destruct (call.is_pass call); [reflexivity|].
    destruct (jump._last_call reference history) as [r|]; [|reflexivity].
    by rewrite (Hr r eq_refl).
  - intros lr sr c Hp Hr Hc.
    pose proof (rewritten_is_bid _ _ _ Hp Hc) as Hk.
    destruct c as [| | |lc sc]; try discriminate.
    eexists lc, sc, _. split; [reflexivity|]. split; [reflexivity|].
    split; [apply jump_size_bids|].
    simpl. unfold jump.fits. rewrite Hp, Hr, Hc. simpl.
    rewrite jump_size_bids. simpl. by destruct exact_size.
Qed.

(** Reference [1H], candidate [3D]: lower strain, two levels up, a jump of
    exact size 1. *)
Lemma Jump_fits_spec_witness :
  fits (JumpFromPartnerLastBid (Some 1)) examples.partner_opened_1H
       (Bid L3 suit.DIAMONDS)
  = Ok (PBool true).
Proof.
  destruct (Jump_fits_spec FromPartnerLastBid (Some 1)
              examples.partner_opened_1H (Bid L3 suit.DIAMONDS))
    as (_ & _ & _ & _ & H).
  destruct (H L1 suit.HEARTS (Bid L3 suit.DIAMONDS)
              eq_refl eq_refl eq_refl)
    as (lc & sc & size & Hc & Hs & _ & Hf).
  injection Hc as <- <-. subst size. exact Hf.
Defined.

(** ** Which preconditions can raise *)

Lemma fits_guarded_total (p : Precondition) (history : History) (call : Call) :
  guards_every_lookup p = true ->
  exists v, fits p history call = Ok v.
Proof.
  induction p; intros Hg; simpl in *; try discriminate; eauto.
  - destruct (IHp Hg) as [v ->]. simpl. eauto.
  - destruct strain; eauto.
  - destruct (last_call (partner history)); eauto.
    destruct (call.strain c); eauto.
    destruct (negb _); eauto.
  - destruct (negb _); eauto.
  - destruct (call.strain call); eauto. destruct (negb _); eauto.
  - destruct (call.strain call); eauto. destruct (negb _); eauto.
  - destruct reference; try discriminate.
    unfold jump.fits, jump.rewritten. simpl.
    destruct (call.is_pass call) eqn:Hp; eauto.
    destruct (last_contract (call_history history)) as [r|] eqn:Hr; eauto.
    pose proof (last_contract_is_contract _ _ Hr) as Hk.
    rewrite Hk. simpl.
    destruct r as [| | |lr sr]; try discriminate.
    destruct call as [| | |lc sc]; try discriminate; simpl;
      rewrite jump_size_bids; simpl; destruct exact_size; eauto.
Qed.

(** C4. At the start of the auction, when the bidder has made no call,
    [SuitLowerThanMyLastSuit.fits] raises on a suit bid, where its sibling
    [RebidSameSuit] tests the last call and returns a false value. *)
Theorem SuitLowerThanMyLastSuit_raises_at_start :
  last_call (me examples.start) = None
  /\ fits SuitLowerThanMyLastSuit examples.start (Bid L1 suit.CLUBS)
     = Raise AttributeError
  /\ fits RebidSameSuit examples.start (Bid L1 suit.CLUBS) = Ok PNone.
Proof. repeat split. Qed.

(** The same for every history and every suit bid. *)
Lemma SuitLowerThanMyLastSuit_raises (history : History) (l : Level)
      (s : suit.t) :
  last_call (me history) = None ->
  s ∈ suit.SUITS ->
  fits SuitLowerThanMyLastSuit history (Bid l s) = Raise AttributeError.
Proof.
  intros Hme Hs. simpl. rewrite Hme.
  by rewrite (bool_decide_eq_true_2 _ Hs).
Qed.

(** ** Construction of rules *)

Lemma has_constraints_false (self : Rule) :
  rule.has_constraints self = false <-> constraints self = ∅.
Proof.
  unfold rule.has_constraints. rewrite negb_false_iff.
  apply bool_decide_eq_true.
Qed.

Lemma has_constraints_true (self : Rule) :
  rule.has_constraints self = true <-> constraints self <> ∅.
Proof.
  unfold rule.has_constraints. rewrite negb_true_iff.
  apply bool_decide_eq_false.
Qed.

Lemma has_conditional_priorities_false (self : Rule) :
  rule.has_conditional_priorities self = false
  <-> conditional_priorities self = [].
Proof.
  unfold rule.has_conditional_priorities.
  destruct (conditional_priorities self); split; congruence.
Qed.

Lemma priority_value_truthy (self : Rule) :
  truthy (rule.priority_value self) = true <-> priority self <> None.
Proof.
  unfold rule.priority_value.
  destruct (priority self); simpl; split; congruence.
Qed.

(** What [__init__] accepts. *)
Lemma init_ok_iff (self : Rule) :
  rule.__init__ self = Ok tt
  <-> (priority self <> None \/ constraints self <> ∅)
      /\ (conditional_priorities self = []
          \/ (constraints self = ∅ /\ rule.has_call_name self = true)).
Proof.
  rewrite <- priority_value_truthy, <- has_constraints_true,
    <- has_constraints_false, <- has_conditional_priorities_false.
  unfold rule.__init__.
  destruct (truthy (rule.priority_value self)),
    (rule.has_constraints self),
    (rule.has_conditional_priorities self),
    (rule.has_call_name self); simpl;
    (split; [try discriminate; intros _| try reflexivity; intros H]);
    intuition congruence.
Qed.

(** The per-call lookup of a rule without a constraints mapping. *)
Lemma per_call_without_constraints (self : Rule) (call : Call) :
  constraints self = ∅ ->
  rule._per_call_constraints_and_priority self call
  = Ok (PSeq [PNone; rule.priority_value self]).
Proof.
  intros He. unfold rule._per_call_constraints_and_priority.
  by rewrite He, lookup_empty.
Qed.

(** C10. A rule that [__init__] accepts and that declares conditional
    priorities has an empty constraints mapping, so for every call the
    per-call lookup yields no constraint and the rule's own priority. *)
Theorem conditional_priorities_exclude_constraints (self : Rule) :
  rule.__init__ self = Ok tt ->
  conditional_priorities self <> [] ->
  constraints self = ∅
  /\ forall call,
      rule._per_call_constraints_and_priority self call
      = Ok (PSeq [PNone; rule.priority_value self]).
Proof.
  intros Hinit Hcond. apply init_ok_iff in Hinit.
  destruct Hinit as [_ [Hnil | [He _]]]; [contradiction|].
  split; [exact He|]. intros call. by apply per_call_without_constraints.
Qed.

Lemma conditional_priorities_exclude_constraints_witness :
  constraints catalog.OneHeartResponse = ∅.
Proof.
  apply (conditional_priorities_exclude_constraints catalog.OneHeartResponse).
  - reflexivity.
  - discriminate.
Defined.

(** C5, as stated, fails: [__init__] accepts a rule with no resolvable
    priority as soon as its constraints mapping is not empty; the missing
    priority then shows at query time, as the result [None] for a hand that
    satisfies the constraints and as the failure of [assert priority]. *)
Lemma init_accepts_rule_without_priority :
  no_resolvable_priority unranked_double
  /\ rule.__init__ unranked_double = Ok tt
  /\ (rule.priority_for_call_and_hand
        unranked_double (examples.solver_for examples.five_hearts)
        examples.rho_opened_1H Double examples.a_hand).1
     = Ok PNone
  /\ rule.possible_priorities_and_conditions_for_call unranked_double Double
     = Raise (AssertionError None).
Proof.
  split; [|split; [|split]].
  - split; [reflexivity|]. split; [|reflexivity].
    intros k v. unfold unranked_double; simpl.
    intros [_ <-]%lookup_singleton_Some. reflexivity.
  - apply init_ok_iff. split.
    + right. simpl. apply insert_non_empty.
    + by left.
  - reflexivity.
  - reflexivity.
Qed.

(** ** Constraint expressions *)

(** Induction on values, through the sequences. *)
Lemma pyval_nested_ind (P : pyval -> Prop) :
  P PNone ->
  (forall b, P (PBool b)) ->
  (forall v, P (PEnum v)) ->
  (forall c, P (PConstraint c)) ->
  (forall e, P (PExpr e)) ->
  (forall items, Forall P items -> P (PSeq items)) ->
  forall v, P v.
Proof.
  intros HN HB HE HC HX HS.
  fix IH 1.
  intros [| b | v | c | e | items];
    [apply HN | apply HB | apply HE | apply HC | apply HX | ].
  apply HS. induction items as [|x xs IHxs]; constructor; [apply IH | exact IHxs].
Qed.

Lemma exprs_from_seq (x : pyval) (xs : list pyval) history call :
  rule._exprs_from_constraints (PSeq (x :: xs)) history call
  = es ← rule._exprs_from_constraints x history call;
    es' ← (match xs with
           | [] => Ok []
           | _ => rule._exprs_from_constraints (PSeq xs) history call
           end);
    Ok (es ++ es').
Proof.
  simpl. destruct (rule._exprs_from_constraints x history call); simpl;
    [|reflexivity].
  destruct xs; reflexivity.
Qed.

Lemma exprs_from_constraint_data (v : pyval) history call :
  is_constraint_data v = true ->
  exists es,
    rule._exprs_from_constraints v history call = Ok es
    /\ es <> []
    /\ forall m, forallb (z3.holds m) es = data_holds m history call v.
Proof.
  induction v as [| b | p | c | e | items IH] using pyval_nested_ind;
    intros Hd; try discriminate.
  - exists [NO_CONSTRAINTS]. by repeat split.
  - exists [expr c history call]. repeat split; [done|].
    intros m. simpl. by rewrite andb_true_r.
  - exists [e]. repeat split; [done|].
    intros m. simpl. by rewrite andb_true_r.
  - induction items as [|x xs IHxs].
    + exists [NO_CONSTRAINTS]. by repeat split.
    + simpl in Hd. apply andb_true_iff in Hd as [Hx Hxs].
      apply Forall_cons in IH as [IHx IHrest].
      destruct (IHx Hx) as (es & Hes & Hne & Hsem).
      rewrite exprs_from_seq, Hes.
      destruct xs as [|y ys].
      * simpl. exists es. rewrite app_nil_r. repeat split; [done|].
        intros m. simpl. by rewrite Hsem, andb_true_r.
      * destruct (IHxs IHrest Hxs) as (es' & Hes' & _ & Hsem').
        rewrite Hes'. simpl. exists (es ++ es'). repeat split.
        -- intros [? _]%app_eq_nil. contradiction.
        -- intros m. rewrite forallb_app, Hsem, Hsem'. reflexivity.
Qed.

Lemma falsy_constraint_data_holds (v : pyval) m history call :
  truthy v = false -> data_holds m history call v = true.
Proof. destruct v as [| [] | | | | []]; simpl; congruence. Qed.

(** An entry that is a sequence without a priority at its end is not
    handled: the per-call lookup returns [None] and its unpacking raises. *)
Lemma per_call_sequence_without_priority (self : Rule) (history : History)
      (call : Call) (e1 e2 : z3.ExprRef) :
  constraints self !! call.name call = Some (PSeq [PExpr e1; PExpr e2]) ->
  rule._per_call_constraints_and_priority self call = Ok PNone
  /\ rule.constraints_expr_for_call self history call = Raise TypeError.
Proof.
  intros Hv.
  unfold rule.constraints_expr_for_call,
    rule._per_call_constraints_and_priority.
  by rewrite Hv.
Qed.

(** C7. For a rule whose shared constraints are constraint data and whose
    entry for the call, if any, has a documented form,
    [constraints_expr_for_call] returns [z3.And] of the expressions of the
    per-call data followed by those of the shared data, each flattened by
    [_exprs_from_constraints]; the result holds for a hand exactly when the
    per-call data and the shared data hold, absent data holding
    trivially.  Nested sequences are flattened in order; absent data gives
    the one expression [NO_CONSTRAINTS]. *)
Theorem constraints_expr_for_call_spec (self : Rule) (history : History)
        (call : Call) :
  is_constraint_data (shared_constraints self) = true ->
  (forall v, constraints self !! call.name call = Some v ->
             is_per_call_entry v = true) ->
  (exists exprs shared,
      rule.constraints_expr_for_call self history call
      = Ok (z3.And (exprs ++ shared))
      /\ rule._exprs_from_constraints (shared_constraints self) history call
         = Ok shared
      /\ (if truthy (per_call_data self call)
          then rule._exprs_from_constraints (per_call_data self call)
                 history call = Ok exprs
          else exprs = [])
      /\ forall m,
          z3.holds m (z3.And (exprs ++ shared))
          = data_holds m history call (per_call_data self call)
            && data_holds m history call (shared_constraints self))
  /\ rule._exprs_from_constraints PNone history call = Ok [NO_CONSTRAINTS]
  /\ rule._exprs_from_constraints (PSeq []) history call
     = Ok [NO_CONSTRAINTS]
  /\ (forall m, z3.holds m NO_CONSTRAINTS = true)
  /\ (forall x xs es es',
         rule._exprs_from_constraints x history call = Ok es ->
         rule._exprs_from_constraints (PSeq xs) history call = Ok es' ->
         xs <> [] ->
         rule._exprs_from_constraints (PSeq (x :: xs)) history call
         = Ok (es ++ es')).
Proof.
  intros Hshared Hentry.
  split; [|repeat split].
  - destruct (exprs_from_constraint_data _ history call Hshared)
      as (shared & Hs & _ & Hsem).
    unfold rule.constraints_expr_for_call,
      rule._per_call_constraints_and_priority, per_call_data in *.
    destruct (constraints self !! call.name call) as [v|] eqn:Hv; simpl.
    + specialize (Hentry v eq_refl).
      destruct v as [| b | p | c | e | items]; try discriminate; simpl.
      * exists [expr c history call], shared. rewrite Hs. simpl.
        repeat split. intros m. simpl. by rewrite Hsem.
      * exists [e], shared. rewrite Hs. simpl.
        repeat split. intros m. simpl. by rewrite Hsem.
      * destruct items as [|d [|[| | p | | |] [|]]]; try discriminate.
        simpl in Hentry |- *.
        destruct (truthy d) eqn:Ht.
        -- destruct (exprs_from_constraint_data _ history call Hentry)
             as (exprs & He & _ & Hsem').
           exists exprs, shared. rewrite He, Hs. simpl.
           repeat split. intros m.
           by rewrite forallb_app, Hsem, Hsem'.
        -- exists [], shared. rewrite Hs. simpl.
           repeat split. intros m. simpl.
           by rewrite Hsem, (falsy_constraint_data_holds d m history call Ht).
    + exists [], shared. rewrite Hs. simpl.
      repeat split. intros m. simpl. by rewrite Hsem.
  - intros x xs es es' Hx Hxs Hne.
    rewrite exprs_from_seq, Hx.
    destruct xs; [contradiction|]. rewrite Hxs. reflexivity.
Qed.

Lemma constraints_expr_for_call_spec_witness :
  rule.constraints_expr_for_call
    catalog.NewSuitAtTheTwoLevel examples.partner_opened_1H
    (Bid L2 suit.CLUBS)
  = Ok (z3.And [z3.Ge catalog.clubs (z3.IntVal 4);
                z3.Ge catalog.points (z3.IntVal 10)]).
Proof.
  destruct (constraints_expr_for_call_spec
              catalog.NewSuitAtTheTwoLevel examples.partner_opened_1H
              (Bid L2 suit.CLUBS))
    as [(exprs & shared & Hr & Hs & He & _) _].
  - reflexivity.
  - intros v Hv. vm_compute in Hv. injection Hv as <-. reflexivity.
  - vm_compute in Hs, He. injection Hs as <-. injection He as <-.
    exact Hr.
Defined.

(** ** Priorities *)

Lemma first_possible_found solver before condition p after :
  Forall (impossible solver) before ->
  is_sat solver condition = true ->
  rule.first_possible solver (before ++ (condition, p) :: after)
  = (Ok (Some p), before.*1 ++ [condition]).
Proof.
  intros Hb Hc. induction Hb as [|[c q] rest Hc' _ IH]; simpl.
  - by rewrite Hc.
  - unfold impossible in Hc'. simpl in Hc'. rewrite Hc'. simpl.
    by rewrite IH.
Qed.

Lemma first_possible_none solver conditional :
  Forall (impossible solver) conditional ->
  rule.first_possible solver conditional = (Ok None, conditional.*1).
Proof.
  intros Hb. induction Hb as [|[c q] rest Hc' _ IH]; simpl.
  - reflexivity.
  - unfold impossible in Hc'. simpl in Hc'. rewrite Hc'. simpl.
    by rewrite IH.
Qed.

(** The loop never raises. *)
Lemma first_possible_ok solver conditional :
  exists found q, rule.first_possible solver conditional = (Ok found, q).
Proof.
  induction conditional as [|[c p] rest (found & q & IH)]; simpl; eauto.
  destruct (is_sat solver c); simpl; eauto. rewrite IH. eauto.
Qed.

(** Once the constraint expression was built, the second per-call lookup
    succeeds, and its priority is the fallback priority. *)
Lemma per_call_priority_after_expr self history call e :
  rule.constraints_expr_for_call self history call = Ok e ->
  exists t c priority,
    rule._per_call_constraints_and_priority self call = Ok t
    /\ unpack2 t = Ok (c, priority)
    /\ (if truthy priority then priority else rule.priority_value self)
       = fallback_priority self call.
Proof.
  unfold rule.constraints_expr_for_call, fallback_priority, per_call_priority,
    rule._per_call_constraints_and_priority.
  destruct (constraints self !! call.name call) as [v|]; simpl.
  - destruct v as [| [] | p | c | x | items]; simpl;
      try (intros _; do 3 eexists; repeat split; by destruct (truthy _)).
    destruct items as [|a [|b [|c rest]]]; simpl.
    + intros _; do 3 eexists; repeat split; by destruct (truthy _).
    + destruct a; simpl; discriminate.
    + destruct b; simpl; try discriminate.
      intros _. by do 3 eexists.
    + destruct (last (c :: rest)) as [[]|]; simpl; discriminate.
  - intros _; do 3 eexists; repeat split; by destruct (truthy _).
Qed.

(** C1.  When the full constraint expression [e] can be built, the first
    query is [e].  If the solver finds it impossible the result is [None]
    and nothing else is asked.  Otherwise the conditions are asked in
    declared order up to the first possible one, whose priority is the
    result; if none is possible the result is the per-call override
    priority when the constraints mapping declares one for the call, else
    the rule's default priority. *)
Theorem priority_for_call_and_hand_spec (self : Rule) (solver : Solver)
        (history : History) (call : Call) (hand : Hand) (e : z3.ExprRef) :
  rule.constraints_expr_for_call self history call = Ok e ->
  (is_sat solver e = false ->
   rule.priority_for_call_and_hand self solver history call hand
   = (Ok PNone, [e]))
  /\ (forall before condition p after,
         is_sat solver e = true ->
         conditional_priorities self = before ++ (condition, p) :: after ->
         Forall (impossible solver) before ->
         is_sat solver condition = true ->
         rule.priority_for_call_and_hand self solver history call hand
         = (Ok (PEnum p), e :: before.*1 ++ [condition]))
  /\ (forall c0 p0 c1 p1 rest,
         is_sat solver e = true ->
         conditional_priorities self = (c0, p0) :: (c1, p1) :: rest ->
         is_sat solver c0 = true ->
         is_sat solver c1 = true ->
         (rule.priority_for_call_and_hand self solver history call hand).1
         = Ok (PEnum p0))
  /\ (is_sat solver e = true ->
      Forall (impossible solver) (conditional_priorities self) ->
      rule.priority_for_call_and_hand self solver history call hand
      = (Ok (fallback_priority self call),
         e :: (conditional_priorities self).*1)).
Proof.
  intros He.
  assert (Hfound : forall before condition p after,
             is_sat solver e = true ->
             conditional_priorities self = before ++ (condition, p) :: after ->
             Forall (impossible solver) before ->
             is_sat solver condition = true ->
             rule.priority_for_call_and_hand self solver history call hand
             = (Ok (PEnum p), e :: before.*1 ++ [condition])).
  { intros before condition p after Hsat Hcp Hb Hc.
    unfold rule.priority_for_call_and_hand. rewrite He, Hcp. simpl.
    rewrite Hsat. simpl.
    rewrite (first_possible_found _ _ _ _ _ Hb Hc). simpl.
    by rewrite app_nil_r. }
  repeat split.
  - intros Hsat. unfold rule.priority_for_call_and_hand. rewrite He. simpl.
    rewrite Hsat. reflexivity.
  - exact Hfound.
  - intros c0 p0 c1 p1 rest Hsat Hcp H0 _.
    by rewrite (Hfound [] c0 p0 ((c1, p1) :: rest) Hsat Hcp (Forall_nil_2 _) H0).
  - intros Hsat Hnone.
    destruct (per_call_priority_after_expr _ _ _ _ He)
      as (t & c & priority & Ht & Hu & Hf).
    unfold rule.priority_for_call_and_hand. rewrite He. simpl.
    rewrite Hsat. simpl.
    rewrite (first_possible_none _ _ Hnone). simpl.
    rewrite Ht. simpl. rewrite Hu. simpl. rewrite <- Hf.
    destruct (truthy priority); simpl; by rewrite app_nil_r.
Qed.

(** [OneHeartResponse] for five hearts and three spades: both conditions
    are possible, the first one's priority is returned. *)
Lemma priority_for_call_and_hand_spec_witness :
  (rule.priority_for_call_and_hand
     catalog.OneHeartResponse (examples.solver_for examples.five_hearts)
     examples.start (Bid L1 suit.HEARTS) examples.a_hand).1
  = Ok (PEnum catalog.LongestNewMajor).
Proof.
  eapply (priority_for_call_and_hand_spec
            catalog.OneHeartResponse
            (examples.solver_for examples.five_hearts)
            examples.start (Bid L1 suit.HEARTS) examples.a_hand).
  - reflexivity.
  - reflexivity.
  - reflexivity.
  - reflexivity.
  - reflexivity.
Defined.

(** C5, amended.  [__init__] has three outcomes.  It raises the
    [AssertionError] with the message "<name> is missing priority" exactly
    for a rule with neither a priority nor an entry in its constraints
    mapping, whatever else the rule declares.  It raises an
    [AssertionError] without a message exactly for a rule that passes the
    first assertion and declares conditional priorities together with a
    constraints mapping or without a [call_name].  It accepts every other
    rule.  So a rule without a priority is accepted as soon as its
    constraints mapping is not empty; for a call whose entry declares no
    priority such a rule returns [None] at query time, even when the solver
    finds the constraints possible, once no conditional priority
    applies. *)
Theorem init_spec (self : Rule) :
  (rule.__init__ self
   = Raise (AssertionError (Some (name self +:+ " is missing priority")))
   <-> priority self = None /\ constraints self = ∅)
  /\ (rule.__init__ self = Raise (AssertionError None)
      <-> (priority self <> None \/ constraints self <> ∅)
          /\ conditional_priorities self <> []
          /\ (constraints self <> ∅ \/ rule.has_call_name self = false))
  /\ (rule.__init__ self = Ok tt
      <-> (priority self <> None \/ constraints self <> ∅)
          /\ (conditional_priorities self = []
              \/ (constraints self = ∅ /\ rule.has_call_name self = true)))
  /\ (rule.__init__ self = Ok tt
      \/ rule.__init__ self = Raise (AssertionError None)
      \/ rule.__init__ self
         = Raise (AssertionError (Some (name self +:+ " is missing priority"))))
  /\ (forall solver history call hand e,
         priority self = None ->
         per_call_priority self call = None ->
         rule.constraints_expr_for_call self history call = Ok e ->
         is_sat solver e = true ->
         Forall (impossible solver) (conditional_priorities self) ->
         rule.priority_for_call_and_hand self solver history call hand
         = (Ok PNone, e :: (conditional_priorities self).*1)).
Proof.
  assert (Hout :
    (rule.__init__ self
     = Raise (AssertionError (Some (name self +:+ " is missing priority")))
     <-> priority self = None /\ constraints self = ∅)
    /\ (rule.__init__ self = Raise (AssertionError None)
        <-> (priority self <> None \/ constraints self <> ∅)
            /\ conditional_priorities self <> []
            /\ (constraints self <> ∅ \/ rule.has_call_name self = false))
    /\ (rule.__init__ self = Ok tt
        \/ rule.__init__ self = Raise (AssertionError None)
        \/ rule.__init__ self
           = Raise (AssertionError
                      (Some (name self +:+ " is missing priority"))))).
  { pose proof (has_constraints_false self) as Hcf.
    pose proof (has_constraints_true self) as Hct.
    pose proof (has_conditional_priorities_false self) as Hpf.
    unfold rule.__init__, rule.priority_value.
    destruct (priority self) as [p|];
      destruct (rule.has_constraints self);
      destruct (rule.has_conditional_priorities self);
      destruct (rule.has_call_name self); simpl;
      (split; [|split]);
      try (split; [intros H; try discriminate H | intros H]);
      auto; intuition (try congruence; try discriminate). }
  destruct Hout as (Hmsg & Hnomsg & Hany).
  split; [exact Hmsg|]. split; [exact Hnomsg|].
  split; [apply init_ok_iff|]. split; [exact Hany|].
  intros solver history call hand e Hp Hpc He Hsat Hnone.
  destruct (per_call_priority_after_expr _ _ _ _ He)
    as (t & c & pr & Ht & Hu & Hfb).
  unfold fallback_priority in Hfb. rewrite Hpc in Hfb.
  unfold rule.priority_for_call_and_hand. rewrite He. simpl.
  rewrite Hsat. simpl.
  rewrite (first_possible_none _ _ Hnone). simpl.
  rewrite Ht. simpl. rewrite Hu. simpl.
  assert (Hv : rule.priority_value self = PNone).
  { unfold rule.priority_value. by rewrite Hp. }
  rewrite Hv in Hfb |- *.
  destruct (truthy pr) eqn:Htr; simpl; rewrite app_nil_r.
  - subst pr. discriminate.
  - reflexivity.
Qed.

(** A multi-call rule may not declare conditional priorities: the third
    assertion fails, without a message. *)
Lemma init_spec_witness :
  rule.__init__
    {| name := "TwoCalls";
       preconditions := [];
       call_name := None;
       call_names := Some ["1H"; "1S"];
       constraints := ∅;
       shared_constraints := PSeq [];
       conditional_priorities :=
         [(z3.Gt catalog.hearts catalog.spades, catalog.LongestNewMajor)];
       priority := Some catalog.OneHeartWithFourResponse |}
  = Raise (AssertionError None).
Proof.
  apply init_spec. split; [|split].
  - left. discriminate.
  - discriminate.
  - right. reflexivity.
Defined.

(** ** The calls of a rule *)

Lemma yield_fitting_filter (self : Rule) (history : History)
      (calls : list Call) :
  (forall c, c ∈ calls ->
             exists b, rule._fits_preconditions self history c = Ok b) ->
  rule.yield_fitting self history calls
  = Ok (List.filter (accepts self history) calls).
Proof.
  induction calls as [|c rest IH]; intros Hok; simpl.
  - reflexivity.
  - destruct (Hok c) as [b Hb]; [apply list_elem_of_here|].
    rewrite IH by (intros c' Hc'; apply Hok; by apply list_elem_of_further).
    unfold accepts. rewrite Hb. simpl. by destruct b.
Qed.

(** C2, as stated, fails.  After partner's [1H] and a pass,
    [OneDiamondResponse] yields [1D], which is not a legal call; and [2C] is
    legal and satisfies the rule's preconditions, but is not yielded. *)
Lemma calls_over_is_not_the_fitting_legal_calls :
  rule.calls_over call_explorer.explorer catalog.OneDiamondResponse
                  examples.partner_opened_1H
  = Ok [Bid L1 suit.DIAMONDS]
  /\ (Bid L1 suit.DIAMONDS
        ∉ call_explorer.legal_calls (call_history examples.partner_opened_1H))
  /\ (Bid L2 suit.CLUBS
        ∈ call_explorer.legal_calls (call_history examples.partner_opened_1H))
  /\ rule._fits_preconditions catalog.OneDiamondResponse
       examples.partner_opened_1H (Bid L2 suit.CLUBS) = Ok true
  /\ ~ yields_fitting_legal_calls call_explorer.explorer
         catalog.OneDiamondResponse examples.partner_opened_1H.
Proof.
  assert (Hnot : Bid L1 suit.DIAMONDS
                   ∉ call_explorer.legal_calls
                       (call_history examples.partner_opened_1H)).
  { intros Hin. apply (bool_decide_eq_true_2 _) in Hin.
    vm_compute in Hin. discriminate. }
  split; [reflexivity|]. split; [exact Hnot|].
  split; [|split; [reflexivity|]].
  - apply (bool_decide_eq_true_1 _). vm_compute. reflexivity.
  - intros (accepted & Hacc & Hiff).
    injection Hacc as <-.
    apply Hnot. apply (Hiff (Bid L1 suit.DIAMONDS)).
    apply list_elem_of_here.
Qed.

(** C2, amended.  [calls_over] yields, in their order, exactly the
    candidate calls on which every precondition is satisfied.  The
    candidates are the calls the rule names, when it names any, and the
    legal calls otherwise; a rule that names no call yields exactly the
    legal calls that satisfy its preconditions. *)
Theorem calls_over_spec (explorer : CallExplorer) (self : Rule)
        (history : History) (candidates : list Call) :
  rule._possible_calls_over explorer self history = Ok candidates ->
  (forall c, c ∈ candidates ->
             exists b, rule._fits_preconditions self history c = Ok b) ->
  rule.calls_over explorer self history
  = Ok (List.filter (accepts self history) candidates)
  /\ (forall c,
         c ∈ List.filter (accepts self history) candidates
         <-> c ∈ candidates
             /\ rule._fits_preconditions self history c = Ok true)
  /\ match declared_call_names self with
     | Some names => rule.from_strings names = Ok candidates
     | None =>
         candidates = possible_calls_over explorer (call_history history)
         /\ yields_fitting_legal_calls explorer self history
     end.
Proof.
  intros Hcand Hok.
  assert (Hcalls : rule.calls_over explorer self history
                   = Ok (List.filter (accepts self history) candidates)).
  { unfold rule.calls_over. rewrite Hcand. simpl.
    by apply yield_fitting_filter. }
  assert (Hiff : forall c,
             c ∈ List.filter (accepts self history) candidates
             <-> c ∈ candidates
                 /\ rule._fits_preconditions self history c = Ok true).
  { intros c. rewrite !list_elem_of_In, filter_In, <- list_elem_of_In.
    unfold accepts.
    destruct (rule._fits_preconditions self history c) as [[]|];
      intuition congruence. }
  split; [exact Hcalls|]. split; [exact Hiff|].
  unfold declared_call_names, rule._possible_calls_over in *.
  destruct (rule.has_call_name self).
  - simpl. destruct (call.from_string _); simpl in *; congruence.
  - destruct (rule.has_call_names self); [exact Hcand|].
    destruct (rule.has_constraints self); [exact Hcand|].
    injection Hcand as <-. split; [reflexivity|].
    eexists. split; [exact Hcalls | exact Hiff].
Qed.

Lemma calls_over_spec_witness :
  rule.calls_over call_explorer.explorer catalog.NewSuitAtTheTwoLevel
                  examples.partner_opened_1H
  = Ok (List.filter
          (accepts catalog.NewSuitAtTheTwoLevel examples.partner_opened_1H)
          [Bid L2 suit.SPADES; Bid L2 suit.CLUBS;
           Bid L2 suit.DIAMONDS; Bid L2 suit.HEARTS]).
Proof.
  apply (calls_over_spec call_explorer.explorer catalog.NewSuitAtTheTwoLevel
           examples.partner_opened_1H).
  - vm_compute. reflexivity.
  - intros c Hc. apply list_elem_of_In in Hc. simpl in Hc.
    destruct Hc as [<- | [<- | [<- | [<- | []]]]]; eexists; vm_compute;
      reflexivity.
Defined.

(** ** Memoization *)

Section memoized_facts.

Context {K V : Type} `{Countable K}.
Variable func : K -> Oracle V.

Lemma memoized_hit (k : K) (v : V) (st : memo_state K V) :
  cache st !! k = Some v -> memoized func k st = (Ok v, st).
Proof. intros Hc. unfold memoized. by rewrite Hc. Qed.

(** After a call that returned, the result is stored. *)
Lemma memoized_stores (k : K) (v : V) (st : memo_state K V) :
  (memoized func k st).1 = Ok v ->
  cache (memoized func k st).2 !! k = Some v.
Proof.
  unfold memoized.
  destruct (cache st !! k) as [v'|] eqn:Hc; simpl.
  - by intros [= <-].
  - destruct (func k) as [[v'|e] q]; simpl; [|discriminate].
    intros [= <-]. apply lookup_insert_eq.
Qed.

(** A call that raised leaves the cache as it was. *)
Lemma memoized_raise (k : K) (e : exn) (st : memo_state K V) :
  (memoized func k st).1 = Raise e ->
  cache st !! k = None
  /\ (func k).1 = Raise e
  /\ (memoized func k st).2
     = {| cache := cache st; queries := queries st ++ (func k).2 |}.
Proof.
  unfold memoized.
  destruct (cache st !! k) as [v'|] eqn:Hc; simpl; [discriminate|].
  destruct (func k) as [[v'|e'] q]; simpl; [discriminate|].
  by intros [= <-].
Qed.

Lemma memoized_twice (k : K) (st : memo_state K V) :
  (forall e, (func k).1 = Raise e -> (func k).2 = []) ->
  let first := memoized func k st in
  let second := memoized func k first.2 in
  second.1 = first.1 /\ queries second.2 = queries first.2.
Proof.
  intros Hraise first second. subst first second.
  destruct ((memoized func k st).1) as [v|e] eqn:Hfirst.
  - rewrite (memoized_hit k v); [done|].
    by apply memoized_stores.
  - destruct (memoized_raise _ _ _ Hfirst) as (Hc & Hf & ->).
    unfold memoized. simpl. rewrite Hc.
    specialize (Hraise e Hf).
    destruct (func k) as [[v'|e'] q]; simpl in *; [discriminate|].
    subst q. rewrite !app_nil_r. by injection Hf as ->.
Qed.

Lemma memoized_coherent (k : K) (st : memo_state K V) :
  coherent func st -> coherent func (memoized func k st).2.
Proof.
  intros Hst k' v'. unfold memoized.
  destruct (cache st !! k) as [v|] eqn:Hc; simpl; [apply Hst|].
  destruct (func k) as [[v|e] q] eqn:Hf; simpl; [|apply Hst].
  rewrite lookup_insert. case_decide as Hk.
  - subst k'. intros [= <-]. by rewrite Hf.
  - apply Hst.
Qed.

Lemma memo_run_coherent (ks : list K) (st : memo_state K V) :
  coherent func st -> coherent func (memo_run func ks st).
Proof.
  revert st. induction ks as [|k ks IH]; intros st Hst; simpl; [done|].
  apply IH. by apply memoized_coherent.
Qed.

Lemma memoized_value (k : K) (st : memo_state K V) :
  coherent func st -> (memoized func k st).1 = (func k).1.
Proof.
  intros Hst. unfold memoized.
  destruct (cache st !! k) as [v|] eqn:Hc; simpl.
  - symmetry. by apply Hst.
  - by destruct (func k) as [[v|e] q].
Qed.

(** A stored result stays stored, whatever is asked next. *)
Lemma memoized_keeps (k k' : K) (v : V) (st : memo_state K V) :
  cache st !! k = Some v ->
  cache (memoized func k' st).2 !! k = Some v.
Proof.
  intros Hk. unfold memoized.
  destruct (cache st !! k') as [v'|] eqn:Hk'; simpl; [exact Hk|].
  destruct (func k') as [[v'|e] q]; simpl; [|exact Hk].
  rewrite lookup_insert_ne; [exact Hk|]. intros ->. congruence.
Qed.

Lemma memo_run_keeps (k : K) (v : V) (ks : list K) (st : memo_state K V) :
  cache st !! k = Some v ->
  cache (memo_run func ks st) !! k = Some v.
Proof.
  revert st. induction ks as [|k' ks IH]; intros st Hk; simpl; [done|].
  apply IH. by apply memoized_keeps.
Qed.

(** The result of a call that raises is never stored. *)
Lemma memoized_never_stores_raise (k k' : K) (e : exn)
      (st : memo_state K V) :
  (func k).1 = Raise e ->
  cache st !! k = None ->
  cache (memoized func k' st).2 !! k = None.
Proof.
  intros Hf Hk. unfold memoized.
  destruct (cache st !! k') as [v'|] eqn:Hk'; simpl; [exact Hk|].
  destruct (func k') as [[v'|e'] q] eqn:Hf'; simpl; [|exact Hk].
  rewrite lookup_insert_ne; [exact Hk|]. intros ->.
  rewrite Hf' in Hf. discriminate.
Qed.

Lemma memo_run_never_stores_raise (k : K) (e : exn) (ks : list K)
      (st : memo_state K V) :
  (func k).1 = Raise e ->
  cache st !! k = None ->
  cache (memo_run func ks st) !! k = None.
Proof.
  intros Hf. revert st.
  induction ks as [|k' ks IH]; intros st Hk; simpl; [done|].
  apply IH. by apply (memoized_never_stores_raise k k' e).
Qed.

(** What a call does to the state: nothing on a hit; on a miss it runs the
    function once and logs its queries. *)
Lemma memoized_miss (k : K) (st : memo_state K V) :
  cache st !! k = None ->
  (memoized func k st).1 = (func k).1
  /\ queries (memoized func k st).2 = queries st ++ (func k).2.
Proof.
  intros Hk. unfold memoized. rewrite Hk.
  by destruct (func k) as [[v|e] q].
Qed.

(** A repeated call, after any calls in between, returns what the first
    call returned and leaves the state as it finds it. *)
Lemma memoized_repeat (k : K) (ks : list K) (st : memo_state K V) :
  (forall e, (func k).1 = Raise e -> (func k).2 = []) ->
  let first := memoized func k st in
  let later := memo_run func ks first.2 in
  let again := memoized func k later in
  again.1 = first.1
  /\ queries again.2 = queries later
  /\ cache again.2 = cache later.
Proof.
  intros Hraise first later again. subst first later again.
  destruct ((memoized func k st).1) as [v|e] eqn:Hfirst.
  - rewrite (memoized_hit k v); [done|].
    apply memo_run_keeps. by apply memoized_stores.
  - destruct (memoized_raise _ _ _ Hfirst) as (Hc & Hf & Hst).
    assert (Hnone : cache (memo_run func ks (memoized func k st).2) !! k
                    = None).
    { apply (memo_run_never_stores_raise k e); [exact Hf|].
      by rewrite Hst. }
    specialize (Hraise e Hf). clear Hst Hfirst Hc.
    remember (memo_run func ks (memoized func k st).2) as later eqn:Hl.
    clear Hl. unfold memoized. rewrite Hnone.
    destruct (func k) as [[v'|e'] q]; simpl in *; [discriminate|].
    subst q. rewrite app_nil_r. by injection Hf as ->.
Qed.

End memoized_facts.

(** [priority_for_call_and_hand] raises only while it builds the constraint
    expression, before it has asked the solver anything. *)
Lemma priority_for_call_and_hand_raises_early (a : Args) (e : exn) :
  (priority_for_call_and_hand_body a).1 = Raise e ->
  (priority_for_call_and_hand_body a).2 = [].
Proof.
  destruct a as [[[[self solver] history] call] hand].
  unfold priority_for_call_and_hand_body, rule.priority_for_call_and_hand.
  destruct (rule.constraints_expr_for_call self history call) as [x|e']
    eqn:He; simpl; [|done].
  destruct (is_sat solver x); simpl; [|discriminate].
  destruct (first_possible_ok solver (conditional_priorities self))
    as (found & q & ->). simpl.
  destruct found as [p|]; simpl; [discriminate|].
  destruct (per_call_priority_after_expr _ _ _ _ He)
    as (t & c & priority & -> & Hu & _). simpl.
  rewrite Hu. simpl. destruct (truthy priority); discriminate.
Qed.

(** C8.  A memoized query whose arguments are not in the cache runs the
    undecorated function once and asks the solver exactly what that asks;
    one whose arguments are in the cache returns the stored result and
    leaves the state as it is.  When the same query is repeated, after any
    number of other queries, it returns what it returned the first time
    and asks the solver nothing.  Starting from an empty cache, a memoized
    query returns, after any queries before it, what the undecorated
    function returns. *)
Theorem priority_for_call_and_hand_memoized_spec
        {K : Type} `{Countable K} (objects : K -> Args) (k : K)
        (st : memo_state K pyval) (between : list K) :
  let first := priority_for_call_and_hand_memoized objects k st in
  let later :=
    foldl (fun st k' => (priority_for_call_and_hand_memoized objects k' st).2)
          first.2 between in
  let again := priority_for_call_and_hand_memoized objects k later in
  (cache st !! k = None ->
   first.1 = (priority_for_call_and_hand_body (objects k)).1
   /\ queries first.2
      = queries st ++ (priority_for_call_and_hand_body (objects k)).2)
  /\ (forall v, cache st !! k = Some v -> first = (Ok v, st))
  /\ again.1 = first.1
  /\ queries again.2 = queries later
  /\ cache again.2 = cache later
  /\ forall earlier : list K,
      (priority_for_call_and_hand_memoized objects k
         (foldl (fun st k' =>
                   (priority_for_call_and_hand_memoized objects k' st).2)
                memo_empty earlier)).1
      = (priority_for_call_and_hand_body (objects k)).1.
Proof.
  set (body := fun k => priority_for_call_and_hand_body (objects k)).
  intros first later again.
  split; [apply (memoized_miss body k st)|].
  split; [intros v; apply (memoized_hit body k v st)|].
  destruct (memoized_repeat body k between st) as (Hv & Hq & Hc).
  { intros e. apply priority_for_call_and_hand_raises_early. }
  split; [exact Hv|]. split; [exact Hq|]. split; [exact Hc|].
  intros earlier. apply (memoized_value body).
  apply (memo_run_coherent body). intros k' v'. simpl.
  by rewrite lookup_empty.
Qed.

(** Two queries of [OneHeartResponse] in a row: the first asks the solver
    twice, the second not at all. *)
Example memoized_second_query_asks_nothing :
  let objects := fun _ : nat =>
    (catalog.OneHeartResponse, examples.solver_for examples.five_hearts,
     examples.start, Bid L1 suit.HEARTS, examples.a_hand) in
  let first := priority_for_call_and_hand_memoized objects 0%nat memo_empty in
  let second := priority_for_call_and_hand_memoized objects 0%nat first.2 in
  first.1 = Ok (PEnum catalog.LongestNewMajor)
  /\ second.1 = Ok (PEnum catalog.LongestNewMajor)
  /\ length (queries first.2) = 2%nat
  /\ length (queries second.2) = 2%nat.
Proof. vm_compute. repeat split. Qed.

(** * Further properties of the preconditions *)

(** X1. Inverting twice gives the truth value of the precondition, as a
    boolean, and raises when the precondition raises. *)
Theorem InvertedPrecondition_twice (p : Precondition) (history : History)
        (call : Call) :
  fits (InvertedPrecondition (InvertedPrecondition p)) history call
  = (v ← fits p history call; Ok (PBool (truthy v))).
Proof.
  simpl. destruct (fits p history call) as [v|e]; simpl; [|reflexivity].
  by rewrite negb_involutive.
Qed.

(** X2. [ForcedToBid] never raises.  It fits exactly when partner's last
    call, if any, is no Pass, RHO's last call, if any, is a Pass, and
    partner's last call is artificial or partner could have more than 25
    points. *)
Theorem ForcedToBid_fits_iff (history : History) (call : Call) :
  exists b,
    fits ForcedToBid history call = Ok (PBool b)
    /\ (b = true
        <-> (forall c, last_call (partner history) = Some c ->
                       call.is_pass c = false)
            /\ (forall c, last_call (rho history) = Some c ->
                          call.is_pass c = true)
            /\ (annotations.Artificial
                   ∈ annotations_for_last_call (partner history)
                \/ could_have_more_points_than (partner history) 25 = true)).
Proof.
  eexists. split; [reflexivity|].
  unfold forced_to_bid._is_forced_to_bid, forced_to_bid._rho_bid,
    forced_to_bid._partner_last_bid_was_pass,
    forced_to_bid._partner_last_call_was_artificial.
  destruct (last_call (partner history)) as [pc|];
    destruct (last_call (rho history)) as [rc|]; simpl;
    try destruct (call.is_pass pc) eqn:Hp;
    try destruct (call.is_pass rc) eqn:Hr; simpl;
    try case_bool_decide;
    try destruct (could_have_more_points_than (partner history) 25) eqn:Hm;
    (split;
     [ intros Hb; try discriminate Hb;
       repeat split; intros; simplify_eq; eauto
     | intros (H1 & H2 & [H3 | H3]);
       try specialize (H1 _ eq_refl); try specialize (H2 _ eq_refl);
       simplify_eq; eauto; try contradiction; try congruence ]).
Qed.

(** X3. [NoCompetition] and [ForcedToBid] never both fit. *)
Theorem NoCompetition_excludes_ForcedToBid (history : History)
        (call call' : Call) :
  exists v b,
    fits NoCompetition history call = Ok v
    /\ fits ForcedToBid history call' = Ok (PBool b)
    /\ truthy v && b = false.
Proof.
  do 2 eexists. split; [reflexivity|]. split; [reflexivity|].
  unfold forced_to_bid._is_forced_to_bid, forced_to_bid._rho_bid.
  destruct (truthy (forced_to_bid._partner_last_bid_was_pass history));
    [apply andb_false_r|].
  destruct (last_call (rho history)) as [rc|]; simpl; [|reflexivity].
  destruct (call.is_pass rc); reflexivity.
Qed.

(** X4. The preconditions on the candidate's suit reject every candidate
    that is no suit bid (Pass, Double, Redouble, a notrump bid), whatever the
    history, and without raising. *)
Theorem suit_preconditions_reject_other_calls (history : History)
        (call : Call) :
  in_SUITS (call.strain call) = false ->
  (forall p, p ∈ suit_only -> fits p history call = Ok (PBool false))
  /\ (forall n,
         fits (PartnerHasAtLeastLengthInSuit n) history call
         = Ok (PBool false)).
Proof.
  intros Hs. split.
  - intros p Hp. unfold suit_only in Hp.
    repeat (apply elem_of_cons in Hp as [-> | Hp]);
      [| | | | by apply elem_of_nil in Hp]; simpl; rewrite ?Hs; simpl;
      try reflexivity.
    + destruct (last_call (partner history)) as [plc|]; [|reflexivity].
      destruct (call.strain plc) as [s|]; [|reflexivity].
      case_bool_decide as Hin; simpl; [|reflexivity].
      case_bool_decide as Heq; simpl; [|reflexivity].
      rewrite Heq in Hs. simpl in Hs.
      by rewrite (bool_decide_eq_true_2 _ Hin) in Hs.
    + destruct (call.strain call) as [s|]; [|reflexivity].
      simpl in Hs. by rewrite Hs.
  - intros n. simpl.
    destruct (call.strain call) as [s|]; [|reflexivity].
    simpl in Hs. by rewrite Hs.
Qed.

Lemma suit_preconditions_reject_other_calls_witness :
  fits SuitLowerThanMyLastSuit examples.start (Bid L1 suit.NOTRUMP)
  = Ok (PBool false).
Proof.
  apply (suit_preconditions_reject_other_calls examples.start
           (Bid L1 suit.NOTRUMP)).
  - reflexivity.
  - unfold suit_only. set_solver.
Defined.

(** X5. For a position that has made no call, [LastBidHasStrain],
    [LastBidWasSuit], [LastBidHasLevel] and [LastBidWas] return [None], a
    false value that is not [False]. *)
Theorem LastBid_without_last_call (history : History)
        (position : positions.t) (call : Call) :
  last_call (view_for history position) = None ->
  (forall strain,
      fits (LastBidHasStrain position strain) history call = Ok PNone)
  /\ fits (LastBidWasSuit position) history call = Ok PNone
  /\ (forall level,
         fits (LastBidHasLevel position level) history call = Ok PNone)
  /\ (forall call_name,
         fits (LastBidWas position call_name) history call = Ok PNone).
Proof.
  intros Hl. repeat split; intros; simpl; rewrite Hl; try reflexivity.
  by destruct strain.
Qed.

Lemma LastBid_without_last_call_witness :
  fits (LastBidWas positions.RHO "2C") examples.start Double = Ok PNone.
Proof.
  by apply (LastBid_without_last_call examples.start positions.RHO Double).
Defined.

(** X6. Whatever the precondition, [fits] raises nothing but
    [AttributeError], and only while the bidder has made no call or no
    contract has been bid. *)
Theorem fits_raises_only_AttributeError (p : Precondition)
        (history : History) (call : Call) (e : exn) :
  fits p history call = Raise e ->
  e = AttributeError
  /\ (last_call (me history) = None
      \/ last_contract (call_history history) = None).
Proof.
  induction p; simpl; try discriminate.
  - destruct (fits p history call) as [v|e'] eqn:Hp; simpl; [discriminate|].
    intros [= <-]. by apply IHp.
  - by destruct strain.
  - destruct (last_call (partner history)) as [c|]; [|discriminate].
    destruct (call.strain c); [|discriminate].
    by destruct (negb _).
  - destruct (negb _); [discriminate|].
    destruct (last_call (me history)) as [c|] eqn:Hme.
    + by destruct (negb _).
    + intros [= <-]. auto.
  - by destruct (negb _).
  - destruct (call.strain call); [|discriminate]. by destruct (negb _).
  - destruct (call.strain call); [|discriminate]. by destruct (negb _).
  - destruct (call.is_double call); [|discriminate].
    destruct (last_contract (call_history history)) eqn:Hc; [discriminate|].
    intros [= <-]. auto.
  - unfold jump.fits.
    destruct (call.is_pass call) eqn:Hpass; [discriminate|].
    destruct (jump._last_call reference history) as [r|]; [|discriminate].
    destruct (call.is_contract r) eqn:Hr; simpl; [|discriminate].
    destruct (jump.rewritten history call) as [c|] eqn:Hc.
    + pose proof (rewritten_is_bid _ _ _ Hpass Hc) as Hk.
      destruct r as [| | |lr sr]; try discriminate.
      destruct c as [| | |lc sc]; try discriminate.
      rewrite jump_size_bids. simpl. by destruct exact_size.
    + intros [= <-]. split; [reflexivity|]. right.
      unfold jump.rewritten in Hc.
      by destruct (call.is_double call || call.is_redouble call).
Qed.

Lemma fits_raises_only_AttributeError_witness :
  last_call (me examples.start) = None
  \/ last_contract (call_history examples.start) = None.
Proof.
  apply (fits_raises_only_AttributeError
           SuitLowerThanMyLastSuit examples.start (Bid L1 suit.CLUBS)
           AttributeError).
  reflexivity.
Defined.

(** X7. [MaxLevel]: a bid fits when its level is at most the maximum; Pass
    and Redouble never fit; a Double is judged as the last contract, and
    raises when there is none. *)
Theorem MaxLevel_fits (max_level : Z) (history : History) :
  (forall l s,
      fits (MaxLevel max_level) history (Bid l s)
      = Ok (PBool (level_number l <=? max_level)))
  /\ fits (MaxLevel max_level) history Pass = Ok (PBool false)
  /\ fits (MaxLevel max_level) history Redouble = Ok (PBool false)
  /\ fits (MaxLevel max_level) history Double
     = match last_contract (call_history history) with
       | Some c => fits (MaxLevel max_level) history c
       | None => Raise AttributeError
       end.
Proof.
  repeat split. simpl.
  destruct (last_contract (call_history history)) as [c|] eqn:Hc;
    [|reflexivity].
  pose proof (last_contract_is_contract _ _ Hc) as Hk.
  by destruct c.
Qed.

(** X8. The not-jump precondition of a reference fits exactly when the jump
    can be measured and the jump precondition does not fit: it equals the
    inverted jump precondition where the jump can be measured, and is false
    with it for a Pass and without a reference contract. *)
Theorem NotJump_is_measured_not_Jump (reference : jump_reference)
        (history : History) (call : Call) :
  fits (Jump reference (Some 0)) history call
  = (v ← fits (Jump reference None) history call;
     Ok (PBool (comparable reference history call && negb (truthy v)))).
Proof.
  simpl. unfold jump.fits, comparable.
  destruct (call.is_pass call) eqn:Hpass; [reflexivity|].
  destruct (jump._last_call reference history) as [r|]; [|reflexivity].
  destruct (call.is_contract r) eqn:Hr; simpl; [|reflexivity].
  destruct (jump.rewritten history call) as [c|] eqn:Hc; [|reflexivity].
  pose proof (rewritten_is_bid _ _ _ Hpass Hc) as Hk.
  destruct r as [| | |lr sr]; try discriminate.
  destruct c as [| | |lc sc]; try discriminate.
  rewrite jump_size_bids. simpl. rewrite negb_involutive.
  by rewrite Z.eqb_sym.
Qed.

(** X9. The jump size from one bid to another is never negative exactly
    when the candidate outranks the reference, and is zero exactly for the
    cheapest bid of the candidate's strain that outranks it: the same level
    in a higher strain, the next level otherwise. *)
Theorem jump_size_sign (lr : Level) (sr : suit.t) (lc : Level) (sc : suit.t) :
  exists size,
    jump._jump_size (Bid lr sr) (Bid lc sc) = Ok size
    /\ (0 <= size <-> outranks lc sc lr sr)
    /\ (size = 0
        <-> (suit.index sr < suit.index sc
             /\ level_number lc = level_number lr)
            \/ (suit.index sc <= suit.index sr
                /\ level_number lc = level_number lr + 1)).
Proof.
  eexists. split; [apply jump_size_bids|]. unfold outranks.
  destruct (Z.leb_spec (suit.index sc) (suit.index sr)); lia.
Qed.

(** X10. [SuitLowerThanMyLastSuit] and [RebidSameSuit] never both fit: a
    candidate of a lower suit than the bidder's last suit is no rebid of
    it. *)
Theorem SuitLower_excludes_Rebid (history : History) (call : Call) :
  fits SuitLowerThanMyLastSuit history call = Ok (PBool true) ->
  exists c,
    last_call (me history) = Some c
    /\ in_SUITS (call.strain c) = true
    /\ strain_lt (call.strain call) (call.strain c) = true
    /\ fits RebidSameSuit history call = Ok (PBool false).
Proof.
  simpl. destruct (in_SUITS (call.strain call)); simpl; [|discriminate].
  destruct (last_call (me history)) as [c|]; [|discriminate].
  destruct (in_SUITS (call.strain c)) eqn:Hc; simpl; [|discriminate].
  intros [= Hlt]. exists c. repeat split; try assumption.
  do 2 f_equal. apply bool_decide_eq_false. intros Heq.
  rewrite Heq in Hlt.
  destruct (call.strain c); simpl in Hlt; [|discriminate].
  apply Z.ltb_lt in Hlt. lia.
Qed.

Lemma SuitLower_excludes_Rebid_witness :
  fits RebidSameSuit my_1H_partner_1S (Bid L2 suit.CLUBS) = Ok (PBool false).
Proof.
  destruct (SuitLower_excludes_Rebid my_1H_partner_1S (Bid L2 suit.CLUBS))
    as (c & _ & _ & _ & H).
  - reflexivity.
  - exact H.
Defined.

(** * Further properties of the rules *)

Lemma fits_all_app (ps qs : list Precondition) history call :
  rule.fits_all (ps ++ qs) history call
  = (b ← rule.fits_all ps history call;
     if b : bool then rule.fits_all qs history call else Ok false).
Proof.
  induction ps as [|p ps IH]; simpl; [reflexivity|].
  destruct (fits p history call) as [v|e]; simpl; [|reflexivity].
  destruct (truthy v); simpl; [exact IH | reflexivity].
Qed.

Lemma fits_all_true (ps : list Precondition) history call :
  rule.fits_all ps history call = Ok true
  <-> Forall (holds_on history call) ps.
Proof.
  induction ps as [|p ps IH]; simpl.
  - split; [constructor | reflexivity].
  - rewrite Forall_cons, <- IH. unfold holds_on.
    destruct (fits p history call) as [v|e]; simpl.
    + destruct (truthy v) eqn:Ht; simpl.
      * split; [intros Hr; split; eauto | tauto].
      * split; [discriminate | intros [(v' & [= <-] & Hv) _]; congruence].
    + split; [discriminate | intros [(v' & [=] & _) _]].
Qed.

(** X11. [_fits_preconditions] is true exactly when every precondition
    returns a true value, and it stops at the first precondition that does
    not: the preconditions after it are not evaluated, so one that would
    raise there goes unnoticed. *)
Theorem fits_preconditions_short_circuit (self : Rule) (history : History)
        (call : Call) :
  (rule._fits_preconditions self history call = Ok true
   <-> Forall (holds_on history call) (preconditions self))
  /\ (forall before p after v,
         preconditions self = before ++ p :: after ->
         Forall (holds_on history call) before ->
         fits p history call = Ok v ->
         truthy v = false ->
         rule._fits_preconditions self history call = Ok false).
Proof.
  split; [apply fits_all_true|].
  intros before p after v Hps Hb Hp Hv.
  unfold rule._fits_preconditions. rewrite Hps, fits_all_app.
  apply fits_all_true in Hb. rewrite Hb. simpl.
  rewrite Hp. simpl. by rewrite Hv.
Qed.

Lemma fits_preconditions_short_circuit_witness :
  rule._fits_preconditions guarded_by_competition examples.start
                           (Bid L2 suit.CLUBS) = Ok false
  /\ fits SuitLowerThanMyLastSuit examples.start (Bid L2 suit.CLUBS)
     = Raise AttributeError.
Proof.
  split; [|reflexivity].
  eapply (fits_preconditions_short_circuit guarded_by_competition
            examples.start (Bid L2 suit.CLUBS)).
  - instantiate (3 := []). reflexivity.
  - constructor.
  - reflexivity.
  - reflexivity.
Defined.

(** X12. An entry of the constraints mapping that ends in a priority must
    be a pair: for any other length the per-call lookup fails its
    assertion, and so do [constraints_expr_for_call] and, before it asks
    the solver anything, [priority_for_call_and_hand]. *)
Theorem per_call_entry_with_priority_must_be_pair (self : Rule)
        (solver : Solver) (history : History) (call : Call) (hand : Hand)
        (items : list pyval) (p : EnumValue) :
  constraints self !! call.name call = Some (PSeq items) ->
  last items = Some (PEnum p) ->
  length items <> 2%nat ->
  rule._per_call_constraints_and_priority self call
  = Raise (AssertionError None)
  /\ rule.constraints_expr_for_call self history call
     = Raise (AssertionError None)
  /\ rule.priority_for_call_and_hand self solver history call hand
     = (Raise (AssertionError None), []).
Proof.
  intros Hv Hl Hn.
  assert (Hp : rule._per_call_constraints_and_priority self call
               = Raise (AssertionError None)).
  { unfold rule._per_call_constraints_and_priority. rewrite Hv. simpl.
    destruct items as [|x xs]; [discriminate|]. simpl. rewrite Hl.
    by rewrite (bool_decide_eq_false_2 _ Hn). }
  assert (He : rule.constraints_expr_for_call self history call
               = Raise (AssertionError None)).
  { unfold rule.constraints_expr_for_call. by rewrite Hp. }
  repeat split; try assumption.
  unfold rule.priority_for_call_and_hand. by rewrite He.
Qed.

Lemma per_call_entry_with_priority_must_be_pair_witness :
  rule.constraints_expr_for_call
    {| name := "Triple";
       preconditions := [];
       call_name := None;
       call_names := None;
       constraints :=
         {[ "2C" := PSeq [PExpr (z3.Ge catalog.clubs (z3.IntVal 4));
                          PExpr (z3.Ge catalog.points (z3.IntVal 10));
                          PEnum catalog.TwoClubNewSuitResponse] ]};
       shared_constraints := PSeq [];
       conditional_priorities := [];
       priority := None |}
    examples.start (Bid L2 suit.CLUBS)
  = Raise (AssertionError None).
Proof.
  eapply (per_call_entry_with_priority_must_be_pair
            _ (examples.solver_for examples.five_hearts)
            examples.start (Bid L2 suit.CLUBS) examples.a_hand).
  - reflexivity.
  - reflexivity.
  - discriminate.
Defined.

Lemma exprs_flattenable (v : pyval) history call :
  if flattenable v
  then exists es, rule._exprs_from_constraints v history call = Ok es
                  /\ es <> []
  else rule._exprs_from_constraints v history call = Raise TypeError.
Proof.
  induction v as [| b | p | c | e | items IH] using pyval_nested_ind;
    try (simpl; eauto; fail).
  - destruct b; simpl; eauto.
  - induction items as [|x xs IHxs]; [simpl; eauto|].
    apply Forall_cons in IH as [IHx IHrest]. specialize (IHxs IHrest).
    rewrite exprs_from_seq.
    change (flattenable (PSeq (x :: xs)))
      with (flattenable x && forallb flattenable xs).
    destruct (flattenable x).
    + destruct IHx as (es & -> & Hne).
      destruct xs as [|y ys].
      * simpl. exists es. by rewrite app_nil_r.
      * change (flattenable (PSeq (y :: ys)))
          with (forallb flattenable (y :: ys)) in IHxs.
        destruct (forallb flattenable (y :: ys)).
        -- destruct IHxs as (es' & -> & _). simpl. exists (es ++ es').
           split; [reflexivity|]. intros [? _]%app_eq_nil. contradiction.
        -- by rewrite IHxs.
    + by rewrite IHx.
Qed.

(** X13. [_exprs_from_constraints] returns the expressions of data it can
    flatten, at least one of them, and raises [TypeError] on anything else
    (a priority or [True] among the constraints). *)
Theorem exprs_from_constraints_total_on_flattenable (v : pyval)
        (history : History) (call : Call) :
  (flattenable v = true
   <-> exists es, rule._exprs_from_constraints v history call = Ok es)
  /\ (flattenable v = false
      <-> rule._exprs_from_constraints v history call = Raise TypeError)
  /\ (forall es, rule._exprs_from_constraints v history call = Ok es ->
                 es <> []).
Proof.
  pose proof (exprs_flattenable v history call) as H.
  destruct (flattenable v).
  - destruct H as (es & He & Hne). rewrite He. repeat split; eauto.
    + discriminate.
    + discriminate.
    + by intros es' [= <-].
  - rewrite H. repeat split; try discriminate.
    intros [es [=]].
Qed.

(** X14. The expression [constraints_expr_for_call] returns is always a
    conjunction of at least one expression. *)
Theorem constraints_expr_is_nonempty_conjunction (self : Rule)
        (history : History) (call : Call) (e : z3.ExprRef) :
  rule.constraints_expr_for_call self history call = Ok e ->
  exists args, e = z3.And args /\ args <> [].
Proof.
  unfold rule.constraints_expr_for_call.
  destruct (rule._per_call_constraints_and_priority self call) as [t|];
    simpl; [|discriminate].
  destruct (unpack2 t) as [[c pr]|]; simpl; [|discriminate].
  destruct (if truthy c then _ else _) as [exprs|]; simpl; [|discriminate].
  destruct (rule._exprs_from_constraints (shared_constraints self)
              history call) as [shared|] eqn:Hs; simpl; [|discriminate].
  intros [= <-]. eexists. split; [reflexivity|].
  intros [_ Hnil]%app_eq_nil.
  by apply (exprs_from_constraints_total_on_flattenable _ _ _) in Hs.
Qed.

Lemma constraints_expr_is_nonempty_conjunction_witness :
  exists args,
    z3.And [z3.Ge catalog.points (z3.IntVal 6);
            z3.Ge catalog.hearts (z3.IntVal 4)]
    = z3.And args /\ args <> [].
Proof.
  apply (constraints_expr_is_nonempty_conjunction
           catalog.OneHeartResponse examples.start (Bid L1 suit.HEARTS)).
  reflexivity.
Defined.

Lemma exprs_from_seq_app (xs ys : list pyval) history call :
  xs <> [] -> ys <> [] ->
  rule._exprs_from_constraints (PSeq (xs ++ ys)) history call
  = (a ← rule._exprs_from_constraints (PSeq xs) history call;
     b ← rule._exprs_from_constraints (PSeq ys) history call;
     Ok (a ++ b)).
Proof.
  intros Hxs Hys. induction xs as [|x xs IH]; [contradiction|].
  destruct ys as [|y ys]; [contradiction|].
  destruct xs as [|x' xs].
  - change ([x] ++ y :: ys) with (x :: y :: ys).
    rewrite (exprs_from_seq x (y :: ys)), (exprs_from_seq x []).
    destruct (rule._exprs_from_constraints x history call) as [ex|];
      [|reflexivity].
    cbn [mbind result_bind]. by rewrite app_nil_r.
  - specialize (IH ltac:(discriminate)).
    change ((x :: x' :: xs) ++ y :: ys) with (x :: ((x' :: xs) ++ y :: ys)).
    rewrite (exprs_from_seq x ((x' :: xs) ++ y :: ys)),
      (exprs_from_seq x (x' :: xs)).
    change ((x' :: xs) ++ y :: ys) with (x' :: (xs ++ y :: ys)) at 1.
    cbv iota.
    change (x' :: (xs ++ y :: ys)) with ((x' :: xs) ++ y :: ys).
    rewrite IH.
    destruct (rule._exprs_from_constraints x history call) as [ex|];
      [|reflexivity].
    destruct (rule._exprs_from_constraints (PSeq (x' :: xs)) history call)
      as [a|]; [|reflexivity].
    destruct (rule._exprs_from_constraints (PSeq (y :: ys)) history call)
      as [b|]; [|reflexivity].
    cbn [mbind result_bind]. by rewrite app_assoc.
Qed.

(** X15. How constraints are nested does not matter: two sequences that
    are not empty give, nested side by side, the expressions of their
    concatenation, in the same order.  (An empty sequence is different: it
    stands for [NO_CONSTRAINTS].) *)
Theorem exprs_from_constraints_nesting (xs ys : list pyval)
        (history : History) (call : Call) :
  xs <> [] -> ys <> [] ->
  rule._exprs_from_constraints (PSeq [PSeq xs; PSeq ys]) history call
  = rule._exprs_from_constraints (PSeq (xs ++ ys)) history call.
Proof.
  intros Hxs Hys.
  rewrite (exprs_from_seq_app xs ys) by assumption.
  rewrite (exprs_from_seq (PSeq xs) [PSeq ys]),
    (exprs_from_seq (PSeq ys) []).
  destruct (rule._exprs_from_constraints (PSeq xs) history call) as [a|];
    [|reflexivity].
  destruct (rule._exprs_from_constraints (PSeq ys) history call) as [b|];
    [|reflexivity].
  cbn [mbind result_bind]. by rewrite app_nil_r.
Qed.

Lemma exprs_from_constraints_nesting_witness :
  rule._exprs_from_constraints
    (PSeq [PSeq [PExpr (z3.Ge catalog.points (z3.IntVal 6))];
           PSeq [PExpr (z3.Ge catalog.hearts (z3.IntVal 4))]])
    examples.start Pass
  = Ok [z3.Ge catalog.points (z3.IntVal 6);
        z3.Ge catalog.hearts (z3.IntVal 4)].
Proof.
  rewrite exprs_from_constraints_nesting; [reflexivity | discriminate..].
Defined.

Lemma first_possible_prefix solver conditional :
  exists found asked rest,
    rule.first_possible solver conditional = (Ok found, asked.*1)
    /\ conditional = asked ++ rest
    /\ (forall p, found = Some p ->
                  exists c, (c, p) ∈ conditional /\ is_sat solver c = true)
    /\ (found = None -> rest = []).
Proof.
  induction conditional as [|[c p] conds (found & asked & rest & IH & Hc & Hf & Hn)];
    simpl.
  - exists None, [], []. repeat split; done.
  - destruct (is_sat solver c) eqn:Hs; simpl.
    + exists (Some p), [(c, p)], conds. repeat split.
      * intros ? [= <-]. exists c. split; [apply list_elem_of_here | done].
      * discriminate.
    + rewrite IH. exists found, ((c, p) :: asked), rest. simpl.
      repeat split.
      * by rewrite Hc.
      * intros p' Hp'. destruct (Hf p' Hp') as (c' & Hin & Hs').
        exists c'. split; [by apply list_elem_of_further | done].
      * exact Hn.
Qed.

(** The priority the per-call lookup returns is the fallback priority. *)
Lemma per_call_lookup_priority self call t c pr :
  rule._per_call_constraints_and_priority self call = Ok t ->
  unpack2 t = Ok (c, pr) ->
  pr = fallback_priority self call.
Proof.
  unfold fallback_priority, per_call_priority,
    rule._per_call_constraints_and_priority.
  destruct (constraints self !! call.name call) as [v|]; simpl.
  - destruct v as [| [] | p | k | x | items]; simpl;
      try (intros [= <-] [= _ <-]; reflexivity).
    destruct items as [|a [|b [|k rest]]]; simpl.
    + by intros [= <-] [= _ <-].
    + destruct a; simpl; intros [= <-]; discriminate.
    + destruct b; simpl; intros [= <-]; try discriminate.
      by intros [= _ <-].
    + destruct (last (k :: rest)) as [[]|]; simpl; intros [= <-];
        discriminate.
  - by intros [= <-] [= _ <-].
Qed.

(** X16. [priority_for_call_and_hand] asks the solver at most once for the
    constraints and once for each conditional priority, and returns nothing
    but [None], the priority of a conditional priority the solver found
    possible, or the fallback priority. *)
Theorem priority_for_call_and_hand_bounds (self : Rule) (solver : Solver)
        (history : History) (call : Call) (hand : Hand) :
  let run := rule.priority_for_call_and_hand self solver history call hand in
  (length run.2 <= 1 + length (conditional_priorities self))%nat
  /\ forall v,
      run.1 = Ok v ->
      v = PNone
      \/ v = fallback_priority self call
      \/ exists c p, (c, p) ∈ conditional_priorities self
                     /\ is_sat solver c = true /\ v = PEnum p.
Proof.
  unfold rule.priority_for_call_and_hand.
  destruct (rule.constraints_expr_for_call self history call) as [e|] eqn:He;
    simpl; [|split; [lia | discriminate]].
  destruct (is_sat solver e); simpl;
    [|split; [lia | intros v [= <-]; by left]].
  destruct (first_possible_prefix solver (conditional_priorities self))
    as (found & asked & rest & -> & Hc & Hf & _).
  assert (Hlen : (length asked <= length (conditional_priorities self))%nat).
  { rewrite Hc, length_app. lia. }
  simpl. destruct found as [p|]; simpl.
  - split; [rewrite length_app, length_fmap; simpl; lia|].
    intros v [= <-]. right. right.
    destruct (Hf p eq_refl) as (c & Hin & Hs). eauto.
  - destruct (per_call_priority_after_expr _ _ _ _ He)
      as (t & c & pr & Ht & Hu & Hfb).
    rewrite Ht. simpl. rewrite Hu. simpl.
    split.
    + destruct (truthy pr); simpl;
        rewrite !length_app, length_fmap; simpl; lia.
    + intros v Hv. right. left. rewrite <- Hfb.
      destruct (truthy pr); simpl in Hv; by injection Hv as <-.
Qed.

(** X17. A rule with a default priority returns [None] only when the solver
    finds the constraints of the call impossible. *)
Theorem default_priority_none_only_if_impossible (self : Rule)
        (solver : Solver) (history : History) (call : Call) (hand : Hand)
        (p0 : EnumValue) :
  priority self = Some p0 ->
  (rule.priority_for_call_and_hand self solver history call hand).1
  = Ok PNone ->
  exists e,
    rule.constraints_expr_for_call self history call = Ok e
    /\ is_sat solver e = false.
Proof.
  intros Hp. unfold rule.priority_for_call_and_hand.
  destruct (rule.constraints_expr_for_call self history call) as [e|] eqn:He;
    simpl; [|discriminate].
  destruct (is_sat solver e) eqn:Hs; simpl; [|eauto].
  destruct (first_possible_ok solver (conditional_priorities self))
    as (found & q & ->). simpl.
  destruct found as [p|]; simpl; [discriminate|].
  destruct (per_call_priority_after_expr _ _ _ _ He)
    as (t & c & pr & Ht & Hu & _).
  rewrite Ht. simpl. rewrite Hu. simpl.
  unfold rule.priority_value. rewrite Hp.
  destruct (truthy pr) eqn:Htr; simpl; [|discriminate].
  intros [= ->]. discriminate.
Qed.

Lemma default_priority_none_only_if_impossible_witness :
  exists e,
    rule.constraints_expr_for_call catalog.OneDiamondResponse
      examples.partner_opened_1H (Bid L1 suit.DIAMONDS) = Ok e
    /\ is_sat (examples.solver_for examples.five_hearts) e = false.
Proof.
  eapply (default_priority_none_only_if_impossible
            catalog.OneDiamondResponse
            (examples.solver_for examples.five_hearts)
            examples.partner_opened_1H (Bid L1 suit.DIAMONDS)
            examples.a_hand).
  - reflexivity.
  - reflexivity.
Defined.

(** X18. When [possible_priorities_and_conditions_for_call] runs to its
    end, it yields the conditional priorities in declared order and then
    the fallback priority with [NO_CONSTRAINTS], the fallback priority is a
    true value, and every priority [priority_for_call_and_hand] returns,
    [None] apart, is one of those it yields. *)
Theorem possible_priorities_cover_priority (self : Rule) (call : Call)
        (pairs : list (pyval * z3.ExprRef)) :
  rule.possible_priorities_and_conditions_for_call self call = Ok pairs ->
  pairs = ((fun cp : z3.ExprRef * EnumValue => (PEnum cp.2, cp.1))
             <$> conditional_priorities self)
          ++ [(fallback_priority self call, NO_CONSTRAINTS)]
  /\ truthy (fallback_priority self call) = true
  /\ forall solver history hand v,
      (rule.priority_for_call_and_hand self solver history call hand).1
      = Ok v ->
      v = PNone \/ v ∈ pairs.*1.
Proof.
  unfold rule.possible_priorities_and_conditions_for_call.
  destruct (rule._per_call_constraints_and_priority self call) as [t|] eqn:Ht;
    simpl; [|discriminate].
  destruct (unpack2 t) as [[c pr]|] eqn:Hu; simpl; [|discriminate].
  pose proof (per_call_lookup_priority _ _ _ _ _ Ht Hu) as ->.
  destruct (truthy (fallback_priority self call)) eqn:Htr; simpl;
    [|discriminate].
  intros [= <-]. split; [reflexivity|]. split; [reflexivity|].
  intros solver history hand v Hv.
  destruct (priority_for_call_and_hand_bounds self solver history call hand)
    as [_ Hb].
  destruct (Hb v Hv) as [-> | [-> | (k & p & Hin & _ & ->)]]; [by left| |];
    right; rewrite fmap_app, elem_of_app.
  - right. simpl. apply list_elem_of_here.
  - left. rewrite <- list_fmap_compose.
    apply list_elem_of_fmap. exists (k, p). by split.
Qed.

Lemma possible_priorities_cover_priority_witness :
  truthy (fallback_priority catalog.OneHeartResponse (Bid L1 suit.HEARTS))
  = true.
Proof.
  eapply (possible_priorities_cover_priority
            catalog.OneHeartResponse (Bid L1 suit.HEARTS)).
  reflexivity.
Defined.

Lemma from_string_inv (n : string) (c : Call) :
  call.from_string n = Ok c -> n = call.name c.
Proof.
  unfold call.from_string.
  destruct (String.eqb_spec n "P") as [->|_]; [by intros [= <-]|].
  destruct (String.eqb_spec n "X") as [->|_]; [by intros [= <-]|].
  destruct (String.eqb_spec n "XX") as [->|_]; [by intros [= <-]|].
  destruct n as [|a [|b [|]]]; try discriminate.
  unfold call.level_of_char, call.strain_of_char.
  repeat (match goal with
          | |- context [Ascii.eqb ?x ?y] =>
              destruct (Ascii.eqb_spec x y) as [->|_]
          end);
    try discriminate; by intros [= <-].
Qed.

Lemma from_strings_names (names : list string) (cs : list Call) :
  rule.from_strings names = Ok cs -> names = call.name <$> cs.
Proof.
  revert cs. induction names as [|n names IH]; intros cs; simpl.
  - by intros [= <-].
  - destruct (call.from_string n) as [c|] eqn:Hc; simpl; [|discriminate].
    destruct (rule.from_strings names) as [cs'|]; simpl; [|discriminate].
    intros [= <-].
    change (n :: names = call.name c :: (call.name <$> cs')).
    f_equal; [by apply from_string_inv | by apply IH].
Qed.

Lemma yield_fitting_subset (self : Rule) history (calls l : list Call) :
  rule.yield_fitting self history calls = Ok l ->
  forall c, c ∈ l -> c ∈ calls.
Proof.
  revert l. induction calls as [|c0 calls IH]; intros l; simpl.
  - intros [= <-] c Hc. by apply elem_of_nil in Hc.
  - destruct (rule._fits_preconditions self history c0) as [b|]; simpl;
      [|discriminate].
    destruct (rule.yield_fitting self history calls) as [cs|]; simpl;
      [|discriminate].
    intros [= <-] c Hc. destruct b.
    + apply elem_of_cons in Hc as [-> | Hc];
        [apply list_elem_of_here | apply list_elem_of_further; eauto].
    + apply list_elem_of_further; eauto.
Qed.

(** X19. A rule that declares call names yields only calls with those
    names; when the names are the keys of its constraints mapping, the
    per-call lookup of every yielded call finds its entry. *)
Theorem calls_over_yields_declared_names (explorer : CallExplorer)
        (self : Rule) (history : History) (names : list string)
        (l : list Call) :
  declared_call_names self = Some names ->
  rule.calls_over explorer self history = Ok l ->
  (forall c, c ∈ l -> call.name c ∈ names)
  /\ (rule.has_call_name self = false ->
      rule.has_call_names self = false ->
      forall c, c ∈ l -> is_Some (constraints self !! call.name c)).
Proof.
  intros Hd Hl.
  assert (Hnames : forall c, c ∈ l -> call.name c ∈ names).
  { unfold rule.calls_over in Hl.
    destruct (rule._possible_calls_over explorer self history)
      as [cands|] eqn:Hc; simpl in Hl; [|discriminate].
    assert (Hfs : rule.from_strings names = Ok cands).
    { unfold declared_call_names, rule._possible_calls_over in *.
      destruct (rule.has_call_name self).
      - injection Hd as <-. simpl.
        by destruct (call.from_string _).
      - destruct (rule.has_call_names self); [by injection Hd as <-|].
        destruct (rule.has_constraints self); [by injection Hd as <-|].
        discriminate. }
    apply from_strings_names in Hfs. subst names.
    intros c Hin. apply list_elem_of_fmap_2.
    by apply (yield_fitting_subset _ _ _ _ Hl). }
  split; [exact Hnames|].
  intros Hn Hns c Hin. specialize (Hnames c Hin).
  unfold declared_call_names in Hd. rewrite Hn, Hns in Hd.
  destruct (rule.has_constraints self); [|discriminate].
  injection Hd as <-.
  apply list_elem_of_fmap in Hnames as ([k v] & Hk & Hkv).
  simpl in Hk. subst k. apply elem_of_map_to_list in Hkv. eauto.
Qed.

Lemma calls_over_yields_declared_names_witness :
  is_Some (constraints catalog.NewSuitAtTheTwoLevel
             !! call.name (Bid L2 suit.CLUBS)).
Proof.
  eapply (calls_over_yields_declared_names call_explorer.explorer
            catalog.NewSuitAtTheTwoLevel examples.partner_opened_1H).
  - reflexivity.
  - vm_compute. reflexivity.
  - reflexivity.
  - reflexivity.
  - set_solver.
Defined.

(** X20. A rule that [__init__] accepts and that declares conditional
    priorities yields at most one call, the call of its [call_name]. *)
Theorem conditional_priorities_single_call (explorer : CallExplorer)
        (self : Rule) (history : History) (l : list Call) :
  rule.__init__ self = Ok tt ->
  conditional_priorities self <> [] ->
  rule.calls_over explorer self history = Ok l ->
  exists n c,
    call_name self = Some n
    /\ call.from_string n = Ok c
    /\ (l = [] \/ l = [c]).
Proof.
  intros Hinit Hcond Hl. apply init_ok_iff in Hinit.
  destruct Hinit as [_ [Hnil | [_ Hname]]]; [contradiction|].
  unfold rule.calls_over, rule._possible_calls_over in Hl.
  rewrite Hname in Hl. unfold rule.has_call_name in Hname.
  destruct (call_name self) as [n|]; [|discriminate]. simpl in Hl.
  destruct (call.from_string n) as [c|] eqn:Hc; simpl in Hl; [|discriminate].
  destruct (rule._fits_preconditions self history c) as [b|]; simpl in Hl;
    [|discriminate].
  injection Hl as <-. exists n, c.
  split; [reflexivity|]. split; [exact Hc|].
  destruct b; auto.
Qed.

Lemma conditional_priorities_single_call_witness :
  exists n c,
    call_name catalog.OneHeartResponse = Some n
    /\ call.from_string n = Ok c
    /\ ([Bid L1 suit.HEARTS] = [] \/ [Bid L1 suit.HEARTS] = [c]).
Proof.
  apply (conditional_priorities_single_call call_explorer.explorer
           catalog.OneHeartResponse examples.partner_opened_1H).
  - reflexivity.
  - discriminate.
  - reflexivity.
Defined.

(** * The class hierarchy *)

Lemma Class_nested_ind (P : Class -> Prop) :
  (forall n subclasses, Forall P subclasses -> P (class n subclasses)) ->
  forall c, P c.
Proof.
  intros H. fix IH 1. intros [n subs]. apply H.
  induction subs as [|c cs IHcs]; constructor; [apply IH | exact IHcs].
Qed.

Lemma get_subclasses_descends (base c : Class) :
  c ∈ _get_subclasses base <-> descends base c.
Proof.
  revert c. induction base as [n subs IH] using Class_nested_ind.
  intros c. simpl. rewrite elem_of_app. split.
  - intros [Hc | Hc]; [by apply descends_child|].
    apply list_elem_of_In, in_flat_map in Hc as (s & Hs & Hc).
    apply list_elem_of_In in Hs, Hc.
    rewrite Forall_forall in IH.
    apply (descends_further _ s); [exact Hs|]. by apply IH.
  - intros Hd. inversion Hd as [c' Hc | s d Hs Hsd]; subst; [by left|].
    right. simpl in Hs. rewrite Forall_forall in IH.
    apply list_elem_of_In, in_flat_map. exists s.
    split; apply list_elem_of_In; [exact Hs|]. by apply IH.
Qed.

Lemma get_subclasses_length (base : Class) :
  S (length (_get_subclasses base)) = class_count base.
Proof.
  induction base as [n subs IH] using Class_nested_ind. simpl. f_equal.
  rewrite length_app.
  induction IH as [|c cs Hc _ IHcs]; simpl; [reflexivity|].
  rewrite length_app. lia.
Qed.

(** X21. [_get_subclasses] lists the classes derived from the base class,
    directly or not, each once for every way it is derived, and never the
    base class itself; [_concrete_rule_classes] keeps exactly those that
    have no subclasses, so a base class without subclasses gives no rule. *)
Theorem concrete_rule_classes_are_the_leaves (Rule_class c : Class) :
  (c ∈ _get_subclasses Rule_class <-> descends Rule_class c)
  /\ (c ∈ _concrete_rule_classes Rule_class
      <-> descends Rule_class c /\ __subclasses__ c = [])
  /\ S (length (_get_subclasses Rule_class)) = class_count Rule_class
  /\ (__subclasses__ Rule_class = [] ->
      _concrete_rule_classes Rule_class = []).
Proof.
  split; [apply get_subclasses_descends|].
  split; [|split; [apply get_subclasses_length|]].
  - unfold _concrete_rule_classes.
    rewrite list_elem_of_In, filter_In, <- list_elem_of_In,
      get_subclasses_descends.
    destruct (__subclasses__ c); intuition congruence.
  - destruct Rule_class as [n subs]. simpl. by intros ->.
Qed.

(** * Rules that are ready for their calls *)

Lemma constraints_expr_ok (self : Rule) (history : History) (call : Call) :
  is_constraint_data (shared_constraints self) = true ->
  match constraints self !! call.name call with
  | Some v => is_per_call_entry v
  | None => true
  end = true ->
  exists e, rule.constraints_expr_for_call self history call = Ok e.
Proof.
  intros Hshared Hentry.
  destruct (exprs_from_constraint_data _ history call Hshared)
    as (shared & Hs & _).
  unfold rule.constraints_expr_for_call,
    rule._per_call_constraints_and_priority.
  destruct (constraints self !! call.name call) as [v|]; simpl.
  - destruct v as [| b | p | c | e | items]; try discriminate; simpl.
    + rewrite Hs. simpl. eauto.
    + rewrite Hs. simpl. eauto.
    + destruct items as [|d [|[| | p | | |] [|]]]; try discriminate.
      simpl in Hentry |- *.
      destruct (truthy d).
      * destruct (exprs_from_constraint_data _ history call Hentry)
          as (exprs & -> & _).
        simpl. rewrite Hs. simpl. eauto.
      * simpl. rewrite Hs. simpl. eauto.
  - rewrite Hs. simpl. eauto.
Qed.

Lemma ready_for_parts (self : Rule) (call : Call) :
  ready_for self call = true ->
  is_constraint_data (shared_constraints self) = true
  /\ match constraints self !! call.name call with
     | Some v => is_per_call_entry v
     | None => true
     end = true
  /\ truthy (fallback_priority self call) = true.
Proof.
  unfold ready_for. rewrite !andb_true_iff. tauto.
Qed.

(** X22. For a rule that is ready for a call (well-formed constraint data,
    and a priority to fall back on) nothing raises: the constraint
    expression is built, [possible_priorities_and_conditions_for_call] runs
    to its end, and [priority_for_call_and_hand] returns a priority, which
    is [None] exactly when the solver finds the constraints impossible. *)
Theorem ready_rule_never_raises (self : Rule) (solver : Solver)
        (history : History) (call : Call) (hand : Hand) :
  ready_for self call = true ->
  exists e v pairs,
    rule.constraints_expr_for_call self history call = Ok e
    /\ rule.possible_priorities_and_conditions_for_call self call = Ok pairs
    /\ (rule.priority_for_call_and_hand self solver history call hand).1
       = Ok v
    /\ (v = PNone <-> is_sat solver e = false).
Proof.
  intros (Hshared & Hentry & Hfb)%ready_for_parts.
  destruct (constraints_expr_ok self history call Hshared Hentry) as [e He].
  destruct (per_call_priority_after_expr _ _ _ _ He)
    as (t & c & pr & Ht & Hu & _).
  pose proof (per_call_lookup_priority _ _ _ _ _ Ht Hu) as ->.
  exists e.
  unfold rule.possible_priorities_and_conditions_for_call,
    rule.priority_for_call_and_hand.
  rewrite He, Ht. simpl. rewrite Hu. simpl. rewrite Hfb. simpl.
  destruct (is_sat solver e) eqn:Hs; simpl.
  - destruct (first_possible_ok solver (conditional_priorities self))
      as (found & q & ->). simpl.
    destruct found as [p|]; simpl.
    + do 2 eexists. repeat split; try reflexivity; discriminate.
    + do 2 eexists. repeat split; try reflexivity; [|discriminate].
      intros Hn. rewrite Hn in Hfb. discriminate.
  - do 2 eexists. repeat split; reflexivity.
Qed.

Lemma ready_rule_never_raises_witness :
  exists e v pairs,
    rule.constraints_expr_for_call catalog.NewSuitAtTheTwoLevel
      examples.partner_opened_1H (Bid L2 suit.CLUBS) = Ok e
    /\ rule.possible_priorities_and_conditions_for_call
         catalog.NewSuitAtTheTwoLevel (Bid L2 suit.CLUBS) = Ok pairs
    /\ (rule.priority_for_call_and_hand catalog.NewSuitAtTheTwoLevel
          (examples.solver_for examples.five_hearts)
          examples.partner_opened_1H (Bid L2 suit.CLUBS) examples.a_hand).1
       = Ok v
    /\ (v = PNone
        <-> is_sat (examples.solver_for examples.five_hearts) e = false).
Proof.
  apply (ready_rule_never_raises catalog.NewSuitAtTheTwoLevel).
  vm_compute. reflexivity.
Defined.

(** * The rule catalog *)

Lemma named_calls_possible (explorer : CallExplorer) (self : Rule)
      (history : History) (calls : list Call) :
  named_calls self = Ok calls ->
  rule._possible_calls_over explorer self history = Ok calls.
Proof.
  unfold named_calls, declared_call_names, rule._possible_calls_over.
  destruct (rule.has_call_name self).
  - simpl. by destruct (call.from_string _).
  - destruct (rule.has_call_names self); [done|].
    destruct (rule.has_constraints self); [done | discriminate].
Qed.

Lemma ready_calls (self : Rule) :
  ready self = true ->
  exists calls,
    named_calls self = Ok calls
    /\ calls <> []
    /\ forall c, c ∈ calls -> ready_for self c = true.
Proof.
  unfold ready. destruct (named_calls self) as [calls|]; [|discriminate].
  destruct calls as [|c0 calls]; [discriminate|].
  intros Hall. exists (c0 :: calls). split; [reflexivity|].
  split; [discriminate|].
  intros c Hc. rewrite forallb_forall in Hall.
  apply Hall. by apply list_elem_of_In.
Qed.

(** X23. Loading the catalog succeeds: every class of [rules.py] without
    subclasses passes the assertions of [__init__], so
    [StandardAmericanYellowCard.rules] holds an instance of each of the 33
    of them. *)
Theorem catalog_loads (m : Imports) :
  exists instances,
    sayc.rules m = Ok instances
    /\ length instances = 33%nat
    /\ forall self, self ∈ sayc.concrete m -> self ∈ instances.
Proof.
  eexists. split; [reflexivity|]. split; [reflexivity|].
  intros self Hin. unfold sayc.concrete in Hin.
  repeat (apply elem_of_cons in Hin as [-> | Hin]);
    [..| by apply elem_of_nil in Hin];
    repeat first [ apply list_elem_of_here | apply list_elem_of_further ].
Qed.

(** X24. Every rule of the catalog names its calls, so its candidates do
    not depend on the auction or on the legal-call enumerator, and it is
    ready for each of them: for every history, solver and hand the
    constraint expression is built and [priority_for_call_and_hand]
    returns a priority, [None] exactly when the constraints are
    impossible. *)
Theorem catalog_rules_are_ready (m : Imports) (self : Rule) :
  self ∈ sayc.concrete m ->
  exists calls,
    calls <> []
    /\ (forall explorer history,
           rule._possible_calls_over explorer self history = Ok calls)
    /\ forall call solver history hand,
        call ∈ calls ->
        exists e v,
          rule.constraints_expr_for_call self history call = Ok e
          /\ (rule.priority_for_call_and_hand
                self solver history call hand).1 = Ok v
          /\ (v = PNone <-> is_sat solver e = false).
Proof.
  intros Hin.
  assert (Hready : ready self = true).
  { unfold sayc.concrete in Hin.
    repeat (apply elem_of_cons in Hin as [-> | Hin]);
      [..| by apply elem_of_nil in Hin]; vm_compute; reflexivity. }
  destruct (ready_calls self Hready) as (calls & Hn & Hne & Hall).
  exists calls. split; [exact Hne|]. split.
  - intros explorer history. by apply named_calls_possible.
  - intros call solver history hand Hc.
    destruct (ready_rule_never_raises self solver history call hand
                (Hall call Hc)) as (e & v & _ & He & _ & Hv & Hiff).
    eauto.
Qed.

Lemma catalog_rules_are_ready_witness :
  exists e v,
    rule.constraints_expr_for_call
      (sayc.Stayman sample_imports) examples.start (Bid L2 suit.CLUBS)
    = Ok e
    /\ (rule.priority_for_call_and_hand
          (sayc.Stayman sample_imports)
          (examples.solver_for examples.five_hearts)
          examples.start (Bid L2 suit.CLUBS) examples.a_hand).1
       = Ok v
    /\ (v = PNone
        <-> is_sat (examples.solver_for examples.five_hearts) e = false).
Proof.
  destruct (catalog_rules_are_ready sample_imports
              (sayc.Stayman sample_imports))
    as (calls & _ & Hcalls & Hready).
  - unfold sayc.concrete. set_solver.
  - specialize (Hcalls call_explorer.explorer examples.start).
    vm_compute in Hcalls. injection Hcalls as <-.
    apply Hready. set_solver.
Defined.

(** X25. At most one exact size fits a jump, and a jump of an exact size
    other than zero is a jump. *)
Theorem Jump_exact_size_unique (reference : jump_reference)
        (history : History) (call : Call) (a b : Z) :
  fits (Jump reference (Some a)) history call = Ok (PBool true) ->
  fits (Jump reference (Some b)) history call = Ok (PBool true) ->
  a = b
  /\ (a <> 0 -> fits (Jump reference None) history call = Ok (PBool true)).
Proof.
  simpl. unfold jump.fits.
  destruct (call.is_pass call); [discriminate|].
  destruct (jump._last_call reference history) as [r|]; [|discriminate].
  destruct (call.is_contract r); simpl; [|discriminate].
  destruct (jump.rewritten history call) as [c|]; [|discriminate].
  destruct (jump._jump_size r c) as [n|]; simpl; [|discriminate].
  intros [= Ha%Z.eqb_eq] [= Hb%Z.eqb_eq]. subst a b.
  split; [reflexivity|]. intros Hn.
  do 2 f_equal. apply negb_true_iff, Z.eqb_neq. exact Hn.
Qed.

Lemma Jump_exact_size_unique_witness :
  fits (Jump FromPartnerLastBid None) examples.partner_opened_1H
       (Bid L3 suit.DIAMONDS)
  = Ok (PBool true).
Proof.
  apply (Jump_exact_size_unique FromPartnerLastBid
           examples.partner_opened_1H (Bid L3 suit.DIAMONDS) 1 1).
  - reflexivity.
  - reflexivity.
  - discriminate.
Defined.
